(** * Route53 validator: the record-resolution engine

    A shallow embedding of [route53_check.py] (the chain-following variant)
    and [route53_validator.py] (the source+target variant with strict
    de-duplication), and the properties of their resolution engine.

    Conventions of the embedding:
    - a name is a [string]; [Str.lower] folds the letters A-Z, which is
      what str.lower() does on a name of ASCII characters, as Route 53
      returns them: what is proved of the case folding is stated for such
      names, and what does not depend on it for every folding function;
    - a resource record set is the dictionary of the listing restricted to
      the keys the programs read: ['Name'], ['Type'] and the optional
      ['ResourceRecords'] (absent on alias records), whose entries are kept
      by their ['Value'];
    - [resolve_to_external_ip] is the oracle: a function from a name to
      [None] (the lookup failed) or [Some ips];
    - a compiled ignore pattern is abstract, with [search] telling whether
      [pat.search(s)] finds a match;
    - Python exceptions are values of [exn], carried by the [result] monad;
    - the notices and the summary printed on the way are not modelled. *)

From Stdlib Require Import String Ascii ZArith List Bool Lia.
From Stdlib Require Import Sorted Permutation.
From stdpp Require Import base decidable option list gmap strings.

Local Open Scope string_scope.

(** ** Strings *)

Module Str.

Definition dot : ascii := "."%char.

Definition is_dot (c : ascii) : bool := Ascii.eqb c dot.

(** [s.rstrip('.')]: every trailing dot goes. *)
Fixpoint rstrip_dot (s : string) : string :=
  match s with
  | EmptyString => EmptyString
  | String c s' =>
      match rstrip_dot s' with
      | EmptyString => if is_dot c then EmptyString else String c EmptyString
      | r => String c r
      end
  end.

Definition is_upper (c : ascii) : bool :=
  let n := nat_of_ascii c in (65 <=? n)%nat && (n <=? 90)%nat.

Definition lower_char (c : ascii) : ascii :=
  if is_upper c then ascii_of_nat (nat_of_ascii c + 32) else c.

(** [s.lower()] *)
Fixpoint lower (s : string) : string :=
  match s with
  | EmptyString => EmptyString
  | String c s' => String (lower_char c) (lower s')
  end.

(** A string of [k] dots. *)
Fixpoint dots (k : nat) : string :=
  match k with
  | O => EmptyString
  | S k' => String dot (dots k')
  end.

(** The last character, if any. *)
Fixpoint last_char (s : string) : option ascii :=
  match s with
  | EmptyString => None
  | String c EmptyString => Some c
  | String _ s' => last_char s'
  end.

(** Dropping the last character. *)
Fixpoint drop_last (s : string) : string :=
  match s with
  | EmptyString => EmptyString
  | String c EmptyString => EmptyString
  | String c s' => String c (drop_last s')
  end.

(** Truthiness of a string: the empty string is falsy. *)
Definition truthy (s : string) : bool :=
  match s with
  | EmptyString => false
  | String _ _ => true
  end.

(** [sep.join(l)] *)
Definition join (sep : string) (l : list string) : string := String.concat sep l.

End Str.

(** [normalize(name)]: [name.rstrip('.').lower()] *)
Definition normalize (name : string) : string := Str.lower (Str.rstrip_dot name).

(** The reading of the specification: exactly one trailing dot is
    stripped, if there is one, and the rest is lower-cased. *)
Definition strip_one_dot (s : string) : string :=
  match Str.last_char s with
  | Some c => if Str.is_dot c then Str.drop_last s else s
  | None => s
  end.

Definition normalize_one_dot (name : string) : string := Str.lower (strip_one_dot name).

(** ** Exceptions *)

Inductive exn : Type :=
| KeyError (key : string)
| IndexError.

(** The outcome of running a piece of the program: a value, an exception,
    or [OutOfFuel] when the bounded unfolding of a [while] loop was too
    short (shown below never to happen for the bound the model uses). *)
Inductive result (A : Type) : Type :=
| Ret (a : A)
| Raise (e : exn)
| OutOfFuel.

Arguments Ret {A} a.
Arguments Raise {A} e.
Arguments OutOfFuel {A}.

#[global] Instance result_ret : MRet result := fun A a => Ret a.

#[global] Instance result_bind : MBind result := fun A B k m =>
  match m with
  | Ret a => k a
  | Raise e => Raise e
  | OutOfFuel => OutOfFuel
  end.

(** ** Records of the zone *)

Record record : Type := mkRecord {
  Name : string;
  Type_ : string;
  ResourceRecords : option (list string)
}.

(** [record['ResourceRecords'][0]['Value']] *)
Definition first_value (r : record) : result string :=
  match ResourceRecords r with
  | None => Raise (KeyError "ResourceRecords")
  | Some [] => Raise IndexError
  | Some (v :: _) => Ret v
  end.

(** Truthiness of what the oracle returns: [None] and [[]] are falsy. *)
Definition truthy_ips (ips : option (list string)) : bool :=
  match ips with
  | Some (_ :: _) => true
  | _ => false
  end.

(** The per-record report appended to the result lists. *)
Record report : Type := mkReport {
  source : string;
  final_domain : string;
  status : string;
  all_ips : string
}.

(** The three lists and the counter of [main]. *)
Record run_state : Type := mkState {
  unresolved : list report;
  resolved : list report;
  all_results : list report;
  processed_count : nat
}.

Definition init_state : run_state := mkState [] [] [] 0.

(** How an iteration of a [for] loop ends. *)
Inductive flow : Type :=
| Continue
| Break.

(** Lines 140 to 154 (130 to 144 of the validator): the report of a
    record, with the sentinel when there is no address. *)
Definition make_report (src final st_text : string) (ip_list : option (list string)) : report :=
  let ips_text :=
    match ip_list with
    | Some (ip :: ips) => Str.join ", " (ip :: ips)
    | _ => "No DNS resolution"
    end in
  mkReport src final st_text ips_text.

(** Lines 138 to 160 (128 to 150 of the validator): the record is counted,
    and its report appended to [all_results] and to one of the two
    partitions. *)
Definition append_report (st : run_state) (src final st_text : string)
    (ip_list : option (list string)) : run_state :=
  let res := make_report src final st_text ip_list in
  mkState
    (if truthy_ips ip_list then unresolved st else unresolved st ++ [res])
    (if truthy_ips ip_list then resolved st ++ [res] else resolved st)
    (all_results st ++ [res])
    (S (processed_count st)).

(** [args.limit is not None and processed_count >= args.limit] *)
Definition limit_reached (limit : option Z) (st : run_state) : bool :=
  match limit with
  | None => false
  | Some n => (n <=? Z.of_nat (processed_count st))%Z
  end.

Section Engine.

(** The live resolver, for the resolver address of the run. *)
Variable resolve_to_external_ip : string -> option (list string).

(** Compiled patterns and [pat.search]. *)
Variable pattern : Type.
Variable search : pattern -> string -> bool.

(** [any(pat.search(source) or (target and pat.search(target)) ...)] *)
Definition ignore_match (pats : list pattern) (src : string) (target : option string) : bool :=
  existsb (fun pat =>
    search pat src ||
    match target with
    | Some t => Str.truthy t && search pat t
    | None => false
    end) pats.

(** *** route53_check.py *)

Definition chain_outcome : Type := string * string * option (list string).

(** What one run of the body of the [while] loop does. *)
Inductive iteration : Type :=
| Next (tested_records : gset string) (current_name : string)
| Done (r : result chain_outcome).

(** [next((r for r in records if normalize(r['Name']) == current_name), None)] *)
Definition find_record (records : list record) (current_name : string) : option record :=
  find (fun r => String.eqb (normalize (Name r)) current_name) records.

(** Lines 64 to 80. *)
Definition chain_body (records : list record) (tested_records : gset string)
    (current_name : string) : iteration :=
  let tested_records := {[current_name]} ∪ tested_records in
  match find_record records current_name with
  | None =>
      let ip_list := resolve_to_external_ip current_name in
      let status := if truthy_ips ip_list then "Resolved externally"
                    else "Does not have an IP match" in
      Done (Ret (current_name, status, ip_list))
  | Some m =>
      let record_type := Type_ m in
      if String.eqb record_type "A" then
        let ip_list := resolve_to_external_ip current_name in
        let status := if truthy_ips ip_list then "Externally resolvable A record"
                      else "A record does not resolve externally" in
        Done (Ret (current_name, status, ip_list))
      else if String.eqb record_type "CNAME" then
        match first_value m with
        | Ret v => Next tested_records (normalize v)
        | Raise e => Done (Raise e)
        | OutOfFuel => Done OutOfFuel
        end
      else
        Done (Ret (current_name, "Unsupported record type: " ++ record_type, None))
  end.

(** The [while] loop of lines 63 to 82, unfolded at most [fuel] times; the
    second component counts the runs of the loop body. *)
Fixpoint chain_loop (fuel : nat) (records : list record) (tested_records : gset string)
    (current_name : string) : result chain_outcome * nat :=
  if decide (current_name ∈ tested_records) then
    (Ret (current_name, "CNAME loop detected", None), 0)
  else
    match fuel with
    | O => (OutOfFuel, 0)
    | S fuel' =>
        match chain_body records tested_records current_name with
        | Done r => (r, 1)
        | Next tested_records' current_name' =>
            let '(r, n) := chain_loop fuel' records tested_records' current_name' in
            (r, S n)
        end
    end.

(** The normalized names of the record list: the key set of the index. *)
Definition index_names (records : list record) : gset string :=
  list_to_set (map (fun r => normalize (Name r)) records).

(** [resolve_cname_chain(records, domain_name, resolver_address)], with
    the number of runs of its loop body. *)
Definition resolve_cname_chain_count (records : list record) (domain_name : string)
    : result chain_outcome * nat :=
  chain_loop (S (size (index_names records))) records ∅ (normalize domain_name).

Definition resolve_cname_chain (records : list record) (domain_name : string)
    : result chain_outcome :=
  fst (resolve_cname_chain_count records domain_name).

(** The CNAME edge leaving [current_name] in the graph the loop walks:
    the first record of that name is a CNAME and carries a value. *)
Definition next_hop (records : list record) (current_name : string) : option string :=
  match find_record records current_name with
  | Some m =>
      if String.eqb (Type_ m) "CNAME" then
        match first_value m with
        | Ret v => Some (normalize v)
        | _ => None
        end
      else None
  | None => None
  end.

(** Following [k] edges. *)
Fixpoint hops (records : list record) (k : nat) (current_name : string) : option string :=
  match k with
  | O => Some current_name
  | S k' =>
      match next_hop records current_name with
      | Some c => hops records k' c
      | None => None
      end
  end.

(** [current_name] lies on a CNAME cycle: one or more edges lead back to it. *)
Definition on_cycle (records : list record) (current_name : string) : Prop :=
  exists k, hops records (S k) current_name = Some current_name.

(** [check_a_record(domain, resolver_address)] *)
Definition check_a_record (domain : string) : option (list string) :=
  resolve_to_external_ip domain.

(** A [for] loop over the records whose body may [continue], [break] or
    raise. *)
Fixpoint for_loop {S : Type} (body : S -> record -> result (flow * S)) (st : S)
    (l : list record) : result S :=
  match l with
  | [] => Ret st
  | r :: l' =>
      '(f, st') ← body st r;
      match f with
      | Break => Ret st'
      | Continue => for_loop body st' l'
      end
  end.

(** [normalize(record['ResourceRecords'][0]['Value']) if record['Type'] == 'CNAME' else None] *)
Definition check_target (r : record) : result (option string) :=
  if String.eqb (Type_ r) "CNAME" then
    v ← first_value r; Ret (Some (normalize v))
  else Ret None.

(** The body of the loop of [main], lines 115 to 160 of route53_check.py;
    [records] is the whole listing, which the chain resolver reads. *)
Definition check_body (records : list record) (pats : list pattern) (limit : option Z)
    (st : run_state) (r : record) : result (flow * run_state) :=
  if limit_reached limit st then Ret (Break, st)
  else
    let src := normalize (Name r) in
    target ← check_target r;
    if ignore_match pats src target then Ret (Continue, st)
    else if String.eqb (Type_ r) "CNAME" then
      v ← first_value r;
      let target := normalize v in
      '(final, st_text, ip_list) ← resolve_cname_chain records target;
      Ret (Continue, append_report st src final st_text ip_list)
    else if String.eqb (Type_ r) "A" then
      let final := src in
      let ip_list := check_a_record src in
      let st_text := if truthy_ips ip_list then "Externally resolvable A record"
                     else "A record does not resolve externally" in
      Ret (Continue, append_report st src final st_text ip_list)
    else Ret (Continue, st).

(** The loop of [main] of route53_check.py over [l], reading the chains in
    [records]; [main] runs it over the listing itself. *)
Definition check_loop (records : list record) (pats : list pattern) (limit : option Z)
    (st : run_state) (l : list record) : result run_state :=
  for_loop (check_body records pats limit) st l.

Definition check_main (records : list record) (pats : list pattern) (limit : option Z)
    : result run_state :=
  check_loop records pats limit init_state records.

(** *** route53_validator.py *)

(** [record['Type'] not in ('A', 'CNAME')] *)
Definition supported (r : record) : bool :=
  String.eqb (Type_ r) "A" || String.eqb (Type_ r) "CNAME".

(** Line 93: the first value when the key is there and the list is not
    empty, [None] otherwise. *)
Definition validator_target (r : record) : option string :=
  match ResourceRecords r with
  | Some (v :: _) => Some (normalize v)
  | _ => None
  end.

(** Lines 104 to 126: the two lookups and the status of a record that is
    neither a duplicate nor ignored. *)
Definition validator_classify (r : record) (src : string)
    : result (string * string * option (list string)) :=
  let ip_list_source := resolve_to_external_ip src in
  let final := src in
  let status_parts :=
    [if truthy_ips ip_list_source then "✅ Source resolves"
     else "❌ Source does not resolve"] in
  '(final, status_parts) ←
    (if String.eqb (Type_ r) "CNAME" then
       v ← first_value r;
       let target := normalize v in
       let final := target in
       let ip_list_target := resolve_to_external_ip target in
       Ret (final,
            if truthy_ips ip_list_source then
              (status_parts ++
                [if truthy_ips ip_list_target then "✅ Target resolves"
                 else "❌ Target does not resolve"])%list
            else status_parts)
     else Ret (final, status_parts));
  let ip_list := if truthy_ips ip_list_source then ip_list_source else Some [] in
  let st_text := Str.join "; " status_parts in
  Ret (final, st_text, ip_list).

(** The body of the loop of [main], lines 86 to 150 of
    route53_validator.py; the state carries [seen_sources]. *)
Definition validator_body (pats : list pattern) (limit : option Z)
    (st : run_state * gset string) (r : record) : result (flow * (run_state * gset string)) :=
  let '(rs, seen_sources) := st in
  if limit_reached limit rs then Ret (Break, st)
  else if negb (supported r) then Ret (Continue, st)
  else
    let src := normalize (Name r) in
    let target := validator_target r in
    if decide (src ∈ seen_sources) then Ret (Continue, st)
    else
      let seen_sources := {[src]} ∪ seen_sources in
      if ignore_match pats src target then Ret (Continue, (rs, seen_sources))
      else
        '(final, st_text, ip_list) ← validator_classify r src;
        Ret (Continue, (append_report rs src final st_text ip_list, seen_sources)).

Definition validator_loop (pats : list pattern) (limit : option Z)
    (st : run_state * gset string) (l : list record) : result (run_state * gset string) :=
  for_loop (validator_body pats limit) st l.

Definition validator_main (records : list record) (pats : list pattern) (limit : option Z)
    : result run_state :=
  '(rs, _) ← validator_loop pats limit (init_state, ∅) records; Ret rs.

End Engine.

Arguments ignore_match {pattern} search pats src target.
Arguments check_body resolve_to_external_ip {pattern} search records pats limit st r.
Arguments check_loop resolve_to_external_ip {pattern} search records pats limit st l.
Arguments check_main resolve_to_external_ip {pattern} search records pats limit.
Arguments validator_body resolve_to_external_ip {pattern} search pats limit st r.
Arguments validator_loop resolve_to_external_ip {pattern} search pats limit st l.
Arguments validator_main resolve_to_external_ip {pattern} search records pats limit.

(** ** Sample data *)

Module Sample.

Definition rec_a : record := mkRecord "a.example.com" "CNAME" (Some ["b.example.com"]).
Definition rec_b (values : option (list string)) : record :=
  mkRecord "b.example.com" "A" values.

Definition rec_x : record := mkRecord "x" "CNAME" (Some ["y"]).
Definition rec_y : record := mkRecord "y" "CNAME" (Some ["x"]).

(** A resolver that answers one address for every name. *)
Definition resolve_all (_ : string) : option (list string) := Some ["1.2.3.4"].
Definition resolve_none (_ : string) : option (list string) := None.

(** A CNAME record whose list of values is empty, and records around it. *)
Definition rec_empty : record := mkRecord "bad.example.com." "CNAME" (Some []).
Definition rec_alias : record := mkRecord "alias.example.com." "CNAME" None.
Definition rec_web : record := mkRecord "www.example.com." "A" (Some ["10.0.0.1"]).

(** No ignore pattern at all: the pattern type is empty of use. *)
Definition search_nothing (_ : unit) (_ : string) : bool := false.

(** Patterns given by the string they must find: [search_empty] stands for
    the pattern [^$], which only the empty string matches, [search_exact]
    for a pattern that finds one given name. *)
Definition search_empty (_ : unit) (s : string) : bool := String.eqb s EmptyString.
Definition search_exact (p : string) (s : string) : bool := String.eqb s p.

(** A resolver that answers for b.example.com only. *)
Definition resolve_b_only (name : string) : option (list string) :=
  if String.eqb name "b.example.com" then Some ["1.2.3.4"] else None.

(** A CNAME to the root name, which normalizes to the empty string. *)
Definition rec_root : record := mkRecord "a.example.com." "CNAME" (Some ["."]).

(** Two records of one name: a CNAME whose target is ignored, then an A. *)
Definition rec_dup_cname : record :=
  mkRecord "dup.example.com." "CNAME" (Some ["ign.example.com."]).
Definition rec_dup_a (values : option (list string)) : record :=
  mkRecord "dup.example.com." "A" values.

End Sample.

(** ** Notions used to state the properties *)

(** The resolver that fails wherever [oracle] answers an empty list. *)
Definition forget_empty (ips : option (list string)) : option (list string) :=
  match ips with
  | Some [] => None
  | _ => ips
  end.

Definition collapse (oracle : string -> option (list string)) (name : string)
    : option (list string) :=
  forget_empty (oracle name).

Definition outcome_forget_empty (r : result chain_outcome) : result chain_outcome :=
  match r with
  | Ret (name, st_text, ips) => Ret (name, st_text, forget_empty ips)
  | Raise e => Raise e
  | OutOfFuel => OutOfFuel
  end.

(** The record carries a first value. *)
Definition has_value (r : record) : bool :=
  match ResourceRecords r with
  | Some (_ :: _) => true
  | _ => false
  end.

(** A CNAME record is well formed when it carries a value. *)
Definition well_formed (r : record) : bool :=
  negb (String.eqb (Type_ r) "CNAME") || has_value r.

(** The normalized target of a CNAME record that has one. *)
Definition cname_target (r : record) : option string :=
  if String.eqb (Type_ r) "CNAME" then validator_target r else None.

(** The record matches an ignore pattern, by its source or by its non-empty
    CNAME target (route53_check.py). *)
Definition ignored {pattern : Type} (search : pattern -> string -> bool)
    (pats : list pattern) (r : record) : bool :=
  ignore_match search pats (normalize (Name r)) (cname_target r).

(** The record is of a supported type and not ignored. *)
Definition eligible {pattern : Type} (search : pattern -> string -> bool)
    (pats : list pattern) (r : record) : bool :=
  supported r && negb (ignored search pats r).

(** [rep] is the report the loop body of route53_check.py builds for [r]. *)
Definition classifies (oracle : string -> option (list string)) {pattern : Type}
    (search : pattern -> string -> bool) (records : list record) (pats : list pattern)
    (r : record) (rep : report) : Prop :=
  exists st', check_body oracle search records pats None init_state r = Ret (Continue, st') /\
    all_results st' = [rep].

(** The number of records a run with this limit can classify out of
    [available] eligible ones. *)
Definition budget (limit : option Z) (st : run_state) (available : nat) : nat :=
  match limit with
  | None => available
  | Some n => Z.to_nat n - processed_count st
  end.

(** The first record of a supported type that carries the normalized name. *)
Definition first_supported (records : list record) (name : string) : option record :=
  find (fun r => supported r && String.eqb (normalize (Name r)) name) records.

(** [rep] is the report the validator builds for [r]. *)
Definition built_from (oracle : string -> option (list string)) (r : record) (rep : report)
    : Prop :=
  exists final st_text ips,
    validator_classify oracle r (normalize (Name r)) = Ret (final, st_text, ips) /\
    rep = make_report (normalize (Name r)) final st_text ips.

(** The record matches an ignore pattern, by its source or by its first
    value (route53_validator.py). *)
Definition validator_ignored {pattern : Type} (search : pattern -> string -> bool)
    (pats : list pattern) (r : record) : bool :=
  ignore_match search pats (normalize (Name r)) (validator_target r).

(** The invariant of the loop of the validator, [prefix] being the records
    the loop has gone through: [seen_sources] holds the names of the
    supported records of the prefix; the reports bear names of
    [seen_sources], no name twice, each built from the first supported
    record of its name; and, when there is no limit, every first supported
    record of the prefix that is not ignored has its report. *)
Record validator_inv (oracle : string -> option (list string)) {pattern : Type}
    (search : pattern -> string -> bool) (pats : list pattern) (limit : option Z)
    (records prefix : list record) (rs : run_state) (seen_sources : gset string) : Prop :=
  mkInv {
    seen_complete : forall r, In r prefix -> supported r = true ->
      normalize (Name r) ∈ seen_sources;
    seen_sound : forall name, name ∈ seen_sources ->
      exists r, In r prefix /\ supported r = true /\ normalize (Name r) = name;
    reports_seen : forall rep, In rep (all_results rs) -> source rep ∈ seen_sources;
    reports_nodup : NoDup (map source (all_results rs));
    reports_first : forall rep, In rep (all_results rs) ->
      exists r, first_supported records (source rep) = Some r /\ built_from oracle r rep;
    reports_complete : limit = None -> forall r, In r prefix -> supported r = true ->
      first_supported records (normalize (Name r)) = Some r ->
      validator_ignored search pats r = false ->
      exists rep, In rep (all_results rs) /\ source rep = normalize (Name r)
  }.

(** ** The zone lookup and the export *)

Module Text.

(** [s.split(sep)] for a one-character separator: the pieces between the
    separators, of which there is always at least one. *)
Fixpoint split_on (sep : ascii) (s : string) : list string :=
  match s with
  | EmptyString => [EmptyString]
  | String c s' =>
      if Ascii.eqb c sep then EmptyString :: split_on sep s'
      else
        match split_on sep s' with
        | seg :: rest => String c seg :: rest
        | [] => [String c EmptyString]
        end
  end.

(** [s.split('/')[-1]] *)
Definition last_segment (s : string) : string :=
  List.last (split_on "/"%char s) EmptyString.

(** The character occurs in the string. *)
Fixpoint contains (c : ascii) (s : string) : bool :=
  match s with
  | EmptyString => false
  | String a s' => Ascii.eqb a c || contains c s'
  end.

(** No letter of A-Z occurs in the string. *)
Fixpoint no_upper (s : string) : bool :=
  match s with
  | EmptyString => true
  | String a s' => negb (Str.is_upper a) && no_upper s'
  end.

(** Every character is an ASCII character (below 128). *)
Fixpoint is_ascii (s : string) : bool :=
  match s with
  | EmptyString => true
  | String a s' => (nat_of_ascii a <? 128)%nat && is_ascii s'
  end.

End Text.

(** [normalize] with the case folding left open: [lower] stands for
    str.lower(), whatever it does to the characters. *)
Definition normalize_with (lower : string -> string) (name : string) : string :=
  lower (Str.rstrip_dot name).

(** What is known of str.lower() on a string of ASCII characters: it folds
    the letters A-Z and leaves the rest. *)
Definition folds_ascii (lower : string -> string) : Prop :=
  forall s, Text.is_ascii s = true -> lower s = Str.lower s.

(** A hosted zone of the listing: ['Name'], ['Id'] and
    ['Config']['PrivateZone']. *)
Record zone : Type := mkZone {
  zone_Name : string;
  zone_Id : string;
  zone_PrivateZone : bool
}.

(** A function that returns or ends the program by [sys.exit(code)] after
    printing a message. *)
Inductive exit_or (A : Type) : Type :=
| Returned (a : A)
| SysExit (code : Z) (printed : string).

Arguments Returned {A} a.
Arguments SysExit {A} code printed.

(** Lines 28 to 30 of [find_zone_id]: the names agree up to trailing dots
    (case matters here) and the privacy flags agree. *)
Definition zone_matches (zone_name : string) (is_private : bool) (z : zone) : bool :=
  String.eqb (Str.rstrip_dot (zone_Name z)) (Str.rstrip_dot zone_name) &&
  Bool.eqb (zone_PrivateZone z) is_private.

(** The inner loop of [find_zone_id] over the zones of one page. *)
Fixpoint scan_page (zone_name : string) (is_private : bool) (zones : list zone)
    : option string :=
  match zones with
  | [] => None
  | z :: zones' =>
      if zone_matches zone_name is_private z then Some (Text.last_segment (zone_Id z))
      else scan_page zone_name is_private zones'
  end.

(** The outer loop over the pages of the paginator. *)
Fixpoint scan_pages (zone_name : string) (is_private : bool) (pages : list (list zone))
    : option string :=
  match pages with
  | [] => None
  | page :: pages' =>
      match scan_page zone_name is_private page with
      | Some id => Some id
      | None => scan_pages zone_name is_private pages'
      end
  end.

(** [find_zone_id(client, zone_name, is_private)], [pages] being what the
    paginator of the client yields. *)
Definition find_zone_id (pages : list (list zone)) (zone_name : string) (is_private : bool)
    : exit_or string :=
  match scan_pages zone_name is_private pages with
  | Some id => Returned id
  | None =>
      SysExit 1
        ("Error: Hosted zone '" ++ zone_name ++ "' with private=" ++
         (if is_private then "True" else "False") ++ " not found.")
  end.

(** [list_records(client, zone_id)]: the record sets of the pages, each page
    appended to [all_records] in turn. *)
Definition list_records (pages : list (list record)) : list record :=
  fold_left (fun all_records page => all_records ++ page)%list pages [].

(** [--csv-scope] *)
Inductive csv_scope : Type :=
| ScopeAll
| ScopeResolved
| ScopeUnresolved.

(** Lines 171 to 176 (161 to 166 of the validator). *)
Definition export_data (scope : csv_scope) (out : run_state) : list report :=
  match scope with
  | ScopeAll => all_results out
  | ScopeResolved => resolved out
  | ScopeUnresolved => unresolved out
  end.

(** [sorted(export_data, key=lambda x: x['source'])]: the stable ascending
    sort of Python, by insertion from the right. *)
Fixpoint insert_by_source (rep : report) (l : list report) : list report :=
  match l with
  | [] => [rep]
  | x :: l' =>
      if String.leb (source rep) (source x) then rep :: x :: l'
      else x :: insert_by_source rep l'
  end.

Definition sorted_by_source (l : list report) : list report :=
  fold_right insert_by_source [] l.

(** The rows handed to the CSV writer, in the order they are written. *)
Definition export_rows (scope : csv_scope) (out : run_state) : list report :=
  sorted_by_source (export_data scope out).

(** The names tested so far lead to the current one along CNAME edges. *)
Definition leads_to (records : list record) (t : gset string) (c : string) : Prop :=
  forall n, n ∈ t -> exists k, hops records (S k) n = Some c.

(** The exported text of a list of addresses: the addresses joined, or the
    sentinel when there is none. *)
Definition ips_text (ip_list : option (list string)) : string :=
  match ip_list with
  | Some (ip :: ips) => Str.join ", " (ip :: ips)
  | _ => "No DNS resolution"
  end.

(** What a function returned, if it did. *)
Definition returned_value {A : Type} (x : exit_or A) : option A :=
  match x with
  | Returned a => Some a
  | SysExit _ _ => None
  end.

(** The three lists and the counter agree: every report of [all_results]
    is in exactly one of [resolved] and [unresolved], in the same order,
    the counter is their number, and the unresolved ones bear the sentinel. *)
Definition partitioned (st : run_state) : Prop :=
  processed_count st = length (all_results st) /\
  Permutation (all_results st) (resolved st ++ unresolved st) /\
  sublist (resolved st) (all_results st) /\
  sublist (unresolved st) (all_results st) /\
  (forall rep, In rep (unresolved st) -> all_ips rep = "No DNS resolution").

(** The counter has not passed the limit. *)
Definition within_limit (limit : option Z) (st : run_state) : Prop :=
  forall n, limit = Some n -> (Z.of_nat (processed_count st) <= Z.max n 0)%Z.

(** The two partitions are the reports of [all_results] that satisfy, or
    do not satisfy, a test. *)
Definition split_by (test : report -> bool) (st : run_state) : Prop :=
  resolved st = List.filter test (all_results st) /\
  unresolved st = List.filter (fun rep => negb (test rep)) (all_results st).

(** The statuses of route53_check.py that come with addresses. *)
Definition status_resolves (st_text : string) : bool :=
  String.eqb st_text "Resolved externally" ||
  String.eqb st_text "Externally resolvable A record".

(** ** normalize *)

Section NormalizeFacts.

Lemma rstrip_dot_split (s : string) :
  exists k, s = Str.rstrip_dot s ++ Str.dots k.
Proof.
  induction s as [|c s [k IH]]; [by exists 0|].
  simpl. destruct (Str.rstrip_dot s) as [|a r] eqn:E.
  - simpl in IH. destruct (Str.is_dot c) eqn:Hc.
    + exists (S k). simpl. apply Ascii.eqb_eq in Hc. by rewrite Hc, IH.
    + exists k. simpl. by rewrite IH.
  - exists k. simpl. rewrite IH at 1. reflexivity.
Qed.

Lemma rstrip_dot_last (s : string) :
  Str.last_char (Str.rstrip_dot s) <> Some Str.dot.
Proof.
  induction s as [|c s IH]; [done|].
  simpl. destruct (Str.rstrip_dot s) as [|a r] eqn:E.
  - destruct (Str.is_dot c) eqn:Hc; [done|].
    simpl. intros [= ->]. unfold Str.is_dot in Hc.
    by rewrite Ascii.eqb_refl in Hc.
  - exact IH.
Qed.

Lemma rstrip_dot_dots (k : nat) : Str.rstrip_dot (Str.dots k) = EmptyString.
Proof. induction k as [|k IH]; simpl; [done|]. by rewrite IH. Qed.

Lemma rstrip_dot_app_dots (s : string) (k : nat) :
  Str.rstrip_dot (s ++ Str.dots k) = Str.rstrip_dot s.
Proof.
  induction s as [|c s IH]; simpl; [apply rstrip_dot_dots|]. by rewrite IH.
Qed.

Lemma rstrip_dot_fix (s : string) :
  Str.last_char s <> Some Str.dot -> Str.rstrip_dot s = s.
Proof.
  induction s as [|c s IH]; [done|]. destruct s as [|a s].
  - simpl. intros Hc. destruct (Str.is_dot c) eqn:E; [|done].
    apply Ascii.eqb_eq in E. congruence.
  - intros Hlast.
    change (Str.rstrip_dot (String c (String a s)))
      with (match Str.rstrip_dot (String a s) with
            | EmptyString => if Str.is_dot c then EmptyString else String c EmptyString
            | String a' r' => String c (String a' r')
            end).
    by rewrite (IH Hlast).
Qed.

End NormalizeFacts.

(** C5, the claim as stated fails: on a name that ends in two dots
    [normalize] removes both, where stripping exactly one trailing dot
    leaves one. *)
Lemma normalize_two_dots :
  normalize "a.." = "a" /\ normalize_one_dot "a.." = "a." /\
  normalize "a.." <> normalize_one_dot "a..".
Proof. repeat split; done. Qed.

(** C5, amended: [normalize] strips every trailing dot and lower-cases what
    is left, whatever the lower-casing does to the characters: the name is a
    stem that does not end in a dot, followed by dots only; there is one
    such stem; and the result is the lower-casing of that stem. The
    [normalize] of this development is the instance with the folding of
    A-Z. *)
Theorem normalize_strips_all_dots (lower : string -> string) (name : string) :
  (exists stem k,
     name = stem ++ Str.dots k /\
     Str.last_char stem <> Some Str.dot /\
     normalize_with lower name = lower stem /\
     (forall stem' k', name = stem' ++ Str.dots k' ->
        Str.last_char stem' <> Some Str.dot -> stem' = stem)) /\
  normalize name = normalize_with Str.lower name.
Proof.
  split; [|reflexivity].
  destruct (rstrip_dot_split name) as [k Hk].
  exists (Str.rstrip_dot name), k. repeat split.
  - exact Hk.
  - apply rstrip_dot_last.
  - intros stem' k' Hname Hlast.
    by rewrite Hname, rstrip_dot_app_dots, rstrip_dot_fix.
Qed.

(** ** The chain resolver *)

Section ChainFacts.

Variable oracle : string -> option (list string).
Variable records : list record.

Lemma find_record_name (c : string) (m : record) :
  find_record records c = Some m -> c ∈ index_names records.
Proof.
  unfold find_record, index_names. intros H.
  apply find_some in H as [Hin Heq]. apply String.eqb_eq in Heq.
  apply elem_of_list_to_set, list_elem_of_In, in_map_iff. eauto.
Qed.

(** The loop goes on exactly along the CNAME edges. *)
Lemma chain_body_next (t : gset string) (c : string) :
  match next_hop records c with
  | Some c' => chain_body oracle records t c = Next ({[c]} ∪ t) c' /\ c ∈ index_names records
  | None => exists r, chain_body oracle records t c = Done r /\ r <> OutOfFuel
  end.
Proof.
  unfold next_hop, chain_body.
  destruct (find_record records c) as [m|] eqn:Hm; [|eauto].
  pose proof (find_record_name _ _ Hm) as Hin.
  destruct (String.eqb (Type_ m) "A") eqn:HA.
  - apply String.eqb_eq in HA. rewrite HA. simpl. eauto.
  - destruct (String.eqb (Type_ m) "CNAME"); [|eauto].
    unfold first_value. destruct (ResourceRecords m) as [[|v l]|]; eauto.
Qed.

(** Enough fuel: the loop ends, after at most one run of the body per
    name of the index not yet tested, and one more. *)
Lemma chain_loop_bound (fuel : nat) (t : gset string) (c : string) :
  t ⊆ index_names records ->
  size (index_names records) < fuel + size t ->
  fst (chain_loop oracle fuel records t c) <> OutOfFuel /\
  snd (chain_loop oracle fuel records t c) + size t <= S (size (index_names records)).
Proof.
  revert t c. induction fuel as [|fuel IH]; intros t c Hsub Hlt;
    pose proof (subseteq_size _ _ Hsub) as Hsz; simpl.
  - destruct (decide (c ∈ t)); simpl; [split; [done|lia] | lia].
  - destruct (decide (c ∈ t)) as [|Hnin]; simpl; [split; [done|lia]|].
    pose proof (chain_body_next t c) as Hb.
    destruct (next_hop records c) as [c'|].
    + destruct Hb as [-> Hin].
      assert (Hsize : size ({[c]} ∪ t : gset string) = S (size t)).
      { rewrite size_union by (by apply disjoint_singleton_l).
        by rewrite size_singleton. }
      destruct (IH ({[c]} ∪ t) c') as [H1 H2]; [|lia|].
      { apply union_subseteq. split; [by apply singleton_subseteq_l | done]. }
      destruct (chain_loop oracle fuel records ({[c]} ∪ t) c') as [r n].
      simpl in *. split; [done | lia].
    + destruct Hb as (r & -> & Hr). simpl. split; [done | lia].
Qed.

(** More fuel than needed changes nothing. *)
Lemma chain_loop_more_fuel (fuel extra : nat) (t : gset string) (c : string) :
  fst (chain_loop oracle fuel records t c) <> OutOfFuel ->
  chain_loop oracle (fuel + extra) records t c = chain_loop oracle fuel records t c.
Proof.
  revert t c. induction fuel as [|fuel IH]; intros t c; simpl.
  - destruct (decide (c ∈ t)); [|done].
    destruct extra; simpl; by destruct (decide (c ∈ t)).
  - destruct (decide (c ∈ t)); [done|].
    destruct (chain_body oracle records t c) as [t' c'|r]; [|done].
    specialize (IH t' c').
    destruct (chain_loop oracle fuel records t' c') as [r0 n0]. simpl in *.
    intros Hr. by rewrite IH.
Qed.

Lemma hops_snoc (k : nat) (a b d : string) :
  hops records k a = Some b -> next_hop records b = Some d ->
  hops records (S k) a = Some d.
Proof.
  revert a. induction k as [|k IH]; intros a; simpl.
  - intros [= ->] ->. done.
  - destruct (next_hop records a) as [a'|]; [|done].
    intros H1 H2. apply (IH _ H1 H2).
Qed.

Lemma on_cycle_next (c : string) :
  on_cycle records c ->
  exists c', next_hop records c = Some c' /\ on_cycle records c'.
Proof.
  intros [k Hk]. simpl in Hk.
  destruct (next_hop records c) as [c'|] eqn:Hn; [|done].
  exists c'. split; [done|]. exists k. by apply hops_snoc with c.
Qed.

(** From a name on a cycle the loop can only end on a repeated name. *)
Lemma chain_loop_on_cycle (fuel : nat) (t : gset string) (c : string) :
  on_cycle records c ->
  fst (chain_loop oracle fuel records t c) = OutOfFuel \/
  exists x, on_cycle records x /\
    fst (chain_loop oracle fuel records t c) = Ret (x, "CNAME loop detected", None).
Proof.
  revert t c. induction fuel as [|fuel IH]; intros t c Hc; simpl.
  - destruct (decide (c ∈ t)); simpl; eauto.
  - destruct (decide (c ∈ t)); simpl; [eauto|].
    destruct (on_cycle_next c Hc) as (c' & Hn & Hc').
    pose proof (chain_body_next t c) as Hb. rewrite Hn in Hb.
    destruct Hb as [-> _]. specialize (IH ({[c]} ∪ t) c' Hc').
    by destruct (chain_loop oracle fuel records ({[c]} ∪ t) c').
Qed.

End ChainFacts.

(** C1: for every record list and every starting name the loop of
    [resolve_cname_chain] ends (it returns or raises within the bound the
    model unfolds it to, and unfolding it further changes nothing); its body
    runs at most |index|+1 times, |index| being the number of distinct
    normalized names of the record list; and started at a name on a CNAME
    cycle, of any length from 1 on, it returns 'CNAME loop detected' with no
    addresses, at a name of the cycle. *)
Theorem resolve_cname_chain_terminates
    (oracle : string -> option (list string)) (records : list record) (domain_name : string) :
  resolve_cname_chain oracle records domain_name <> OutOfFuel /\
  (forall extra,
     chain_loop oracle (S (size (index_names records)) + extra) records ∅ (normalize domain_name)
     = resolve_cname_chain_count oracle records domain_name) /\
  snd (resolve_cname_chain_count oracle records domain_name) <= size (index_names records) + 1 /\
  (on_cycle records (normalize domain_name) ->
   exists x, on_cycle records x /\
     resolve_cname_chain oracle records domain_name = Ret (x, "CNAME loop detected", None)).
Proof.
  unfold resolve_cname_chain, resolve_cname_chain_count.
  destruct (chain_loop_bound oracle records (S (size (index_names records))) ∅
              (normalize domain_name)) as [Hfuel Hcount].
  { apply empty_subseteq. }
  { lia. }
  split; [exact Hfuel|]. split; [|split].
  - intros extra. by apply chain_loop_more_fuel.
  - rewrite size_empty in Hcount. lia.
  - intros Hc.
    destruct (chain_loop_on_cycle oracle records (S (size (index_names records))) ∅
                (normalize domain_name) Hc) as [Hout|Hx]; [by destruct Hfuel | exact Hx].
Qed.

(** The two-record cycle x -> y -> x, started at x. *)
Lemma resolve_cname_chain_terminates_witness :
  on_cycle [Sample.rec_x; Sample.rec_y] (normalize "x") /\
  exists x, on_cycle [Sample.rec_x; Sample.rec_y] x /\
    resolve_cname_chain Sample.resolve_none [Sample.rec_x; Sample.rec_y] "x"
    = Ret (x, "CNAME loop detected", None).
Proof.
  assert (H : on_cycle [Sample.rec_x; Sample.rec_y] (normalize "x")) by (exists 1; reflexivity).
  split; [exact H|].
  exact (proj2 (proj2 (proj2 (resolve_cname_chain_terminates Sample.resolve_none
           [Sample.rec_x; Sample.rec_y] "x"))) H).
Defined.

(** C2: with a.example.com a CNAME to b.example.com, b.example.com an A
    record, and a resolver that answers ["1.2.3.4"] for b.example.com,
    resolving a.example.com ends at b.example.com, 'Externally resolvable A
    record', with the addresses ["1.2.3.4"]. *)
Theorem scenario_cname_to_a
    (oracle : string -> option (list string)) (values : option (list string)) :
  oracle "b.example.com" = Some ["1.2.3.4"] ->
  resolve_cname_chain oracle [Sample.rec_a; Sample.rec_b values] "a.example.com"
  = Ret ("b.example.com", "Externally resolvable A record", Some ["1.2.3.4"]).
Proof.
  intros H. unfold resolve_cname_chain. vm_compute. rewrite H. reflexivity.
Qed.

Lemma scenario_cname_to_a_witness :
  resolve_cname_chain Sample.resolve_all [Sample.rec_a; Sample.rec_b (Some ["10.0.0.1"])]
    "a.example.com"
  = Ret ("b.example.com", "Externally resolvable A record", Some ["1.2.3.4"]).
Proof. apply (scenario_cname_to_a Sample.resolve_all (Some ["10.0.0.1"])). reflexivity. Defined.

(** C3: with x a CNAME to y and y a CNAME to x, resolving x returns 'CNAME
    loop detected' at x, the name whose repetition is detected, with no
    addresses, whatever the resolver answers. *)
Theorem scenario_two_cycle (oracle : string -> option (list string)) :
  resolve_cname_chain oracle [Sample.rec_x; Sample.rec_y] "x"
  = Ret ("x", "CNAME loop detected", None).
Proof. vm_compute. reflexivity. Qed.

(** ** A CNAME record without a value *)

(** C4, the code at the failing input: a listing that holds a CNAME record
    with an empty list of values makes both programs raise IndexError when
    they reach it (KeyError when the key is absent), so that the records
    before and after it are not reported either. *)
Theorem empty_cname_raises (oracle : string -> option (list string)) :
  check_main oracle Sample.search_nothing [Sample.rec_web; Sample.rec_empty] [] None
    = Raise IndexError /\
  validator_main oracle Sample.search_nothing [Sample.rec_web; Sample.rec_empty] [] None
    = Raise IndexError /\
  check_main oracle Sample.search_nothing [Sample.rec_alias; Sample.rec_web] [] None
    = Raise (KeyError "ResourceRecords") /\
  validator_main oracle Sample.search_nothing [Sample.rec_alias; Sample.rec_web] [] None
    = Raise (KeyError "ResourceRecords").
Proof.
  repeat split; vm_compute; destruct (oracle "www.example.com") as [[|? ?]|];
    try destruct (oracle "alias.example.com") as [[|? ?]|]; reflexivity.
Qed.

(** ** Empty answers of the resolver *)

Section EmptyAnswer.

Variable oracle : string -> option (list string).
Variable pattern : Type.
Variable search : pattern -> string -> bool.

Lemma truthy_forget_empty (ips : option (list string)) :
  truthy_ips (forget_empty ips) = truthy_ips ips.
Proof. by destruct ips as [[|]|]. Qed.

Lemma append_report_forget_empty (st : run_state) (src final st_text : string)
    (ips : option (list string)) :
  append_report st src final st_text (forget_empty ips)
  = append_report st src final st_text ips.
Proof. by destruct ips as [[|]|]. Qed.

Lemma chain_body_collapse (records : list record) (t : gset string) (c : string) :
  chain_body (collapse oracle) records t c =
  match chain_body oracle records t c with
  | Next t' c' => Next t' c'
  | Done r => Done (outcome_forget_empty r)
  end.
Proof.
  unfold chain_body, collapse. rewrite truthy_forget_empty.
  destruct (find_record records c) as [m|]; [|done].
  destruct (String.eqb (Type_ m) "A"); [done|].
  destruct (String.eqb (Type_ m) "CNAME"); [|done].
  by destruct (first_value m).
Qed.

Lemma chain_loop_collapse (fuel : nat) (records : list record) (t : gset string) (c : string) :
  chain_loop (collapse oracle) fuel records t c =
  (outcome_forget_empty (fst (chain_loop oracle fuel records t c)),
   snd (chain_loop oracle fuel records t c)).
Proof.
  revert t c. induction fuel as [|fuel IH]; intros t c; simpl.
  - by destruct (decide (c ∈ t)).
  - destruct (decide (c ∈ t)); [done|].
    rewrite chain_body_collapse.
    destruct (chain_body oracle records t c) as [t' c'|r]; [|done].
    rewrite IH. by destruct (chain_loop oracle fuel records t' c').
Qed.

Lemma resolve_cname_chain_collapse (records : list record) (domain_name : string) :
  resolve_cname_chain (collapse oracle) records domain_name
  = outcome_forget_empty (resolve_cname_chain oracle records domain_name).
Proof.
  unfold resolve_cname_chain, resolve_cname_chain_count.
  by rewrite chain_loop_collapse.
Qed.

Lemma check_body_collapse (records : list record) (pats : list pattern) (limit : option Z)
    (st : run_state) (r : record) :
  check_body (collapse oracle) search records pats limit st r
  = check_body oracle search records pats limit st r.
Proof.
  unfold check_body. destruct (limit_reached limit st); [done|].
  destruct (check_target r) as [target| |]; simpl; try done.
  destruct (ignore_match search pats (normalize (Name r)) target); [done|].
  destruct (String.eqb (Type_ r) "CNAME").
  - destruct (first_value r) as [v| |]; simpl; try done.
    rewrite resolve_cname_chain_collapse.
    destruct (resolve_cname_chain oracle records (normalize v)) as [[[n s] ips]| |];
      simpl; try done.
    by rewrite append_report_forget_empty.
  - destruct (String.eqb (Type_ r) "A"); [|done].
    unfold check_a_record, collapse.
    by rewrite truthy_forget_empty, append_report_forget_empty.
Qed.

Lemma for_loop_ext {S : Type} (f g : S -> record -> result (flow * S))
    (st : S) (l : list record) :
  (forall s r, f s r = g s r) -> for_loop f st l = for_loop g st l.
Proof.
  intros Hfg. revert st. induction l as [|r l IH]; intros st; simpl; [done|].
  rewrite Hfg. destruct (g st r) as [[[|] st']| |]; simpl; auto.
Qed.

(** The statuses the chain resolver returns with an empty answer. *)
Lemma chain_loop_empty_answer (fuel : nat) (records : list record) (t : gset string)
    (c name st_text : string) :
  fst (chain_loop oracle fuel records t c) = Ret (name, st_text, Some []) ->
  oracle name = Some [] /\
  (st_text = "Does not have an IP match" \/
   st_text = "A record does not resolve externally").
Proof.
  revert t c. induction fuel as [|fuel IH]; intros t c; simpl.
  - by destruct (decide (c ∈ t)).
  - destruct (decide (c ∈ t)); [done|].
    destruct (chain_body oracle records t c) as [t' c'|r] eqn:Hb.
    + specialize (IH t' c').
      destruct (chain_loop oracle fuel records t' c'). exact IH.
    + simpl. intros ->. unfold chain_body in Hb.
      destruct (find_record records c) as [m|].
      * destruct (String.eqb (Type_ m) "A").
        { injection Hb as <- <- Hips. rewrite Hips. split; [done|]. by right. }
        destruct (String.eqb (Type_ m) "CNAME"); [by destruct (first_value m)|done].
      * injection Hb as <- <- Hips. rewrite Hips. split; [done|]. by left.
Qed.

End EmptyAnswer.


(** ** The run of route53_check.py *)

Lemma bind_ret {A B : Type} (a : A) (k : A -> result B) : (x ← Ret a; k x) = k a.
Proof. reflexivity. Qed.

Lemma for_loop_cons {S : Type} (body : S -> record -> result (flow * S)) (st : S)
    (r : record) (l : list record) :
  for_loop body st (r :: l)
  = (x ← body st r;
     match x with
     | (Continue, st') => for_loop body st' l
     | (Break, st') => Ret st'
     end).
Proof. reflexivity. Qed.

Section CheckFacts.

Variable oracle : string -> option (list string).
Variable pattern : Type.
Variable search : pattern -> string -> bool.
Variable records : list record.
Variable pats : list pattern.

Hypothesis records_wf : Forall (fun r => well_formed r = true) records.

Lemma well_formed_first_value (r : record) :
  well_formed r = true -> String.eqb (Type_ r) "CNAME" = true ->
  exists v, first_value r = Ret v /\ validator_target r = Some (normalize v).
Proof.
  unfold well_formed, has_value, first_value, validator_target. intros Hwf Ht.
  rewrite Ht in Hwf. simpl in Hwf.
  destruct (ResourceRecords r) as [[|v l]|]; try done. by exists v.
Qed.

Lemma check_target_wf (r : record) :
  well_formed r = true -> check_target r = Ret (cname_target r).
Proof.
  intros Hwf. unfold check_target, cname_target.
  destruct (String.eqb (Type_ r) "CNAME") eqn:Ht; [|done].
  destruct (well_formed_first_value r Hwf Ht) as (v & -> & ->). done.
Qed.

Lemma chain_body_no_raise (t : gset string) (c : string) (e : exn) :
  chain_body oracle records t c <> Done (Raise e).
Proof.
  unfold chain_body. destruct (find_record records c) as [m|] eqn:Hm; [|done].
  destruct (String.eqb (Type_ m) "A"); [done|].
  destruct (String.eqb (Type_ m) "CNAME") eqn:Ht; [|done].
  apply find_some in Hm as [Hin _]. apply list_elem_of_In in Hin.
  rewrite Forall_forall in records_wf.
  destruct (well_formed_first_value m (records_wf m Hin) Ht) as (v & -> & _). done.
Qed.

Lemma chain_loop_no_raise (fuel : nat) (t : gset string) (c : string) (e : exn) :
  fst (chain_loop oracle fuel records t c) <> Raise e.
Proof.
  revert t c. induction fuel as [|fuel IH]; intros t c; simpl.
  - by destruct (decide (c ∈ t)).
  - destruct (decide (c ∈ t)); [done|].
    pose proof (chain_body_no_raise t c e) as Hb.
    destruct (chain_body oracle records t c) as [t' c'|r].
    + specialize (IH t' c'). by destruct (chain_loop oracle fuel records t' c').
    + simpl. congruence.
Qed.

(** On well-formed records the chain resolver returns. *)
Lemma resolve_cname_chain_returns (domain_name : string) :
  exists name st_text ips,
    resolve_cname_chain oracle records domain_name = Ret (name, st_text, ips).
Proof.
  unfold resolve_cname_chain, resolve_cname_chain_count.
  destruct (chain_loop_bound oracle records (S (size (index_names records))) ∅
              (normalize domain_name)) as [Hfuel _]; [apply empty_subseteq | lia |].
  pose proof (chain_loop_no_raise (S (size (index_names records))) ∅
                (normalize domain_name)) as Hraise.
  destruct (fst (chain_loop oracle (S (size (index_names records))) records ∅
                   (normalize domain_name))) as [[[name st_text] ips]|e|].
  - by exists name, st_text, ips.
  - by destruct (Hraise e).
  - done.
Qed.

(** What the loop body does with a well-formed record, the limit not being
    reached: nothing when the record is not eligible, one report otherwise. *)
Lemma check_body_cases (r : record) :
  well_formed r = true ->
  (eligible search pats r = false /\
   forall limit st, limit_reached limit st = false ->
     check_body oracle search records pats limit st r = Ret (Continue, st)) \/
  (eligible search pats r = true /\
   exists final st_text ips, forall limit st, limit_reached limit st = false ->
     check_body oracle search records pats limit st r
     = Ret (Continue, append_report st (normalize (Name r)) final st_text ips)).
Proof.
  intros Hwf. unfold eligible, ignored, supported.
  assert (Hbody : forall limit st, limit_reached limit st = false ->
            check_body oracle search records pats limit st r
            = if ignore_match search pats (normalize (Name r)) (cname_target r)
              then Ret (Continue, st)
              else if String.eqb (Type_ r) "CNAME" then
                v ← first_value r;
                '(final, st_text, ip_list) ← resolve_cname_chain oracle records (normalize v);
                Ret (Continue, append_report st (normalize (Name r)) final st_text ip_list)
              else if String.eqb (Type_ r) "A" then
                Ret (Continue,
                     append_report st (normalize (Name r)) (normalize (Name r))
                       (if truthy_ips (oracle (normalize (Name r)))
                        then "Externally resolvable A record"
                        else "A record does not resolve externally")
                       (oracle (normalize (Name r))))
              else Ret (Continue, st)).
  { intros limit st Hlim. unfold check_body.
    by rewrite Hlim, (check_target_wf r Hwf), bind_ret. }
  destruct (ignore_match search pats (normalize (Name r)) (cname_target r)) eqn:Hi.
  - left. rewrite andb_false_r. split; [done|]. exact Hbody.
  - rewrite andb_true_r.
    destruct (String.eqb (Type_ r) "CNAME") eqn:Ht.
    + right. rewrite orb_true_r. split; [done|].
      destruct (well_formed_first_value r Hwf Ht) as (v & Hv & _).
      destruct (resolve_cname_chain_returns (normalize v)) as (name & st_text & ips & Hres).
      exists name, st_text, ips. intros limit st Hlim.
      by rewrite (Hbody limit st Hlim), Hv, bind_ret, Hres, bind_ret.
    + rewrite orb_false_r. destruct (String.eqb (Type_ r) "A").
      * right. split; [done|]. eexists _, _, _. intros limit st Hlim.
        rewrite (Hbody limit st Hlim). reflexivity.
      * left. split; [done|]. exact Hbody.
Qed.

(** Once the limit is reached the loop stops, whatever the records left. *)
Lemma check_loop_stop (limit : option Z) (st : run_state) (l : list record) :
  limit_reached limit st = true ->
  check_loop oracle search records pats limit st l = Ret st.
Proof.
  intros H. destruct l as [|r l]; [done|].
  unfold check_loop. simpl. unfold check_body. by rewrite H.
Qed.

Lemma budget_step (limit : option Z) (st : run_state) (src final st_text : string)
    (ips : option (list string)) (available : nat) :
  limit_reached limit st = false ->
  budget limit st (S available)
  = S (budget limit (append_report st src final st_text ips) available).
Proof.
  unfold budget, limit_reached. destruct limit as [n|]; [|done].
  simpl. intros H. apply Z.leb_gt in H. lia.
Qed.

Lemma budget_stop (limit : option Z) (st : run_state) (available : nat) :
  limit_reached limit st = true -> budget limit st available = 0.
Proof.
  unfold budget, limit_reached. destruct limit as [n|]; [|done].
  intros H. apply Z.leb_le in H. lia.
Qed.

(** The loop over well-formed records: it returns, having appended the
    reports of the first eligible records, as many as the limit leaves. *)
Lemma check_loop_spec (limit : option Z) (l : list record) (st : run_state) :
  Forall (fun r => well_formed r = true) l ->
  exists st' reps,
    check_loop oracle search records pats limit st l = Ret st' /\
    all_results st' = (all_results st ++ reps)%list /\
    processed_count st' = processed_count st + length reps /\
    Forall2 (classifies oracle search records pats)
      (firstn (budget limit st (length (List.filter (eligible search pats) l)))
         (List.filter (eligible search pats) l))
      reps.
Proof.
  intros Hl. revert st. induction Hl as [|r l Hr Hl IH]; intros st.
  - exists st, []. simpl. rewrite app_nil_r, firstn_nil.
    repeat split; [lia | constructor].
  - destruct (limit_reached limit st) eqn:Hlim.
    + exists st, []. rewrite check_loop_stop by done.
      rewrite budget_stop by done. rewrite app_nil_r. simpl.
      repeat split; [lia | constructor].
    + unfold check_loop. simpl.
      destruct (check_body_cases r Hr) as [[Hel Hbody]|[Hel (final & st_text & ips & Hbody)]];
        rewrite Hel, (Hbody limit st Hlim); simpl.
      * apply IH.
      * destruct (IH (append_report st (normalize (Name r)) final st_text ips))
          as (st' & reps & Hrun & Hall & Hcount & Hreps).
        exists st', (make_report (normalize (Name r)) final st_text ips :: reps).
        split; [exact Hrun|]. split; [|split].
        -- rewrite Hall. simpl. by rewrite <- app_assoc.
        -- rewrite Hcount. simpl. lia.
        -- rewrite (budget_step limit st (normalize (Name r)) final st_text ips) by done.
           simpl. constructor; [|exact Hreps].
           eexists. split; [apply (Hbody None init_state); done | done].
Qed.

(** The loop body passes over an ignored record. *)
Lemma check_body_ignored (limit : option Z) (r : record) (st : run_state) :
  well_formed r = true -> ignored search pats r = true ->
  limit_reached limit st = false ->
  check_body oracle search records pats limit st r = Ret (Continue, st).
Proof.
  unfold ignored. intros Hwf Hig Hlim. unfold check_body.
  by rewrite Hlim, (check_target_wf r Hwf), bind_ret, Hig.
Qed.

(** An ignored record leaves the state of the loop as it is. *)
Lemma check_loop_skip_ignored (limit : option Z) (r : record) (l1 l2 : list record)
    (st : run_state) :
  well_formed r = true -> ignored search pats r = true ->
  check_loop oracle search records pats limit st (l1 ++ r :: l2)
  = check_loop oracle search records pats limit st (l1 ++ l2).
Proof.
  intros Hwf Hig. revert st. induction l1 as [|a l1 IH]; intros st.
  - simpl. destruct (limit_reached limit st) eqn:Hlim.
    + by rewrite !check_loop_stop.
    + unfold check_loop. simpl. by rewrite check_body_ignored.
  - unfold check_loop in *. simpl.
    destruct (check_body oracle search records pats limit st a) as [[[|] st']| |];
      simpl; auto.
Qed.

End CheckFacts.

Lemma ignored_iff {pattern : Type} (search : pattern -> string -> bool)
    (pats : list pattern) (r : record) :
  ignored search pats r = true <->
  exists pat, In pat pats /\
    (search pat (normalize (Name r)) = true \/
     exists t, cname_target r = Some t /\ t <> EmptyString /\ search pat t = true).
Proof.
  unfold ignored, ignore_match. rewrite existsb_exists.
  split; intros (pat & Hin & H); exists pat; (split; [done|]).
  - apply orb_prop in H as [H|H]; [by left|]. right.
    destruct (cname_target r) as [t|]; [|done].
    apply andb_prop in H as [Ht Hs]. exists t. by destruct t.
  - destruct H as [->|(t & -> & Ht & ->)]; [done|].
    destruct t; [done|]. apply orb_true_r.
Qed.

(** C6, the claim as stated fails: with the limit -1 and one eligible A
    record the run classifies nothing, and 0 is not min(-1, 1). *)
Lemma negative_limit_classifies_nothing :
  check_main Sample.resolve_all Sample.search_nothing [Sample.rec_web] [] (Some (-1)%Z)
    = Ret init_state /\
  List.filter (eligible Sample.search_nothing []) [Sample.rec_web] = [Sample.rec_web] /\
  Z.of_nat (length (all_results init_state))
    <> Z.min (-1) (Z.of_nat (length (List.filter (eligible Sample.search_nothing [])
                                       [Sample.rec_web]))).
Proof. repeat split; done. Qed.

(** C6, amended: on a listing whose CNAME records all carry a value, the
    run with limit N returns, having classified exactly
    min(max(N, 0), eligible_count) records, where the eligible records are
    those of type A or CNAME that are not ignored; the classified records
    are the first eligible ones in input order, each with the report the
    loop body builds for it; the counter equals the number of reports; and
    the limit is tested before anything else is done with a record: once it
    is reached, the loop stops whatever the records left. *)
Theorem limit_enforcement
    (oracle : string -> option (list string)) (pattern : Type)
    (search : pattern -> string -> bool)
    (records : list record) (pats : list pattern) (N : Z) :
  Forall (fun r => well_formed r = true) records ->
  exists out,
    check_main oracle search records pats (Some N) = Ret out /\
    Z.of_nat (length (all_results out))
    = Z.min (Z.max N 0) (Z.of_nat (length (List.filter (eligible search pats) records))) /\
    processed_count out = length (all_results out) /\
    Forall2 (classifies oracle search records pats)
      (firstn (Z.to_nat N) (List.filter (eligible search pats) records))
      (all_results out) /\
    (forall st l, limit_reached (Some N) st = true ->
       check_loop oracle search records pats (Some N) st l = Ret st).
Proof.
  intros Hwf.
  destruct (check_loop_spec oracle pattern search records pats Hwf (Some N) records
              init_state Hwf) as (out & reps & Hrun & Hall & Hcount & Hreps).
  simpl in Hall, Hcount, Hreps. subst reps. rewrite Nat.sub_0_r in Hreps.
  exists out. split; [exact Hrun|]. split; [|split; [|split]].
  - apply Forall2_length in Hreps. rewrite <- Hreps, length_firstn. lia.
  - exact Hcount.
  - exact Hreps.
  - intros st l. apply check_loop_stop.
Qed.

(** Three A records and the limit 2. *)
Lemma limit_enforcement_witness :
  exists out,
    check_main Sample.resolve_all Sample.search_nothing
      [Sample.rec_web; Sample.rec_web; Sample.rec_web] [] (Some 2%Z) = Ret out /\
    Z.of_nat (length (all_results out)) = 2%Z.
Proof.
  destruct (limit_enforcement Sample.resolve_all unit Sample.search_nothing
              [Sample.rec_web; Sample.rec_web; Sample.rec_web] [] 2)
    as (out & Hrun & Hlen & _).
  - repeat constructor.
  - exists out. split; [exact Hrun | exact Hlen].
Defined.

(** C7, the claim as stated fails: the target of a CNAME to the root name
    normalizes to the empty string, which the pattern [^$] matches; the
    record is classified and counted all the same, because an empty target
    is not searched. *)
Lemma empty_target_is_not_ignored :
  Sample.search_empty tt (normalize ".") = true /\
  check_main Sample.resolve_none Sample.search_empty [Sample.rec_root] [tt] None
  = Ret (mkState
           [mkReport "a.example.com" EmptyString "Does not have an IP match" "No DNS resolution"]
           []
           [mkReport "a.example.com" EmptyString "Does not have an IP match" "No DNS resolution"]
           1).
Proof. split; reflexivity. Qed.

(** C7, amended: a record whose normalized source name, or whose non-empty
    normalized CNAME target, matches an ignore pattern is passed over by the
    loop: the body leaves the three lists and the counter as they are, and
    the run over a listing is the run that never visits the record (which
    other records' chains may still read). A CNAME record without a value
    is left out. *)
Theorem ignored_record_is_skipped
    (oracle : string -> option (list string)) (pattern : Type)
    (search : pattern -> string -> bool) (pats : list pattern) (limit : option Z)
    (l1 l2 : list record) (r : record) (pat : pattern) :
  well_formed r = true ->
  In pat pats ->
  (search pat (normalize (Name r)) = true \/
   exists t, cname_target r = Some t /\ t <> EmptyString /\ search pat t = true) ->
  (forall records st, limit_reached limit st = false ->
     check_body oracle search records pats limit st r = Ret (Continue, st)) /\
  (forall records st,
     check_loop oracle search records pats limit st (l1 ++ r :: l2)
     = check_loop oracle search records pats limit st (l1 ++ l2)) /\
  check_main oracle search (l1 ++ r :: l2) pats limit
  = check_loop oracle search (l1 ++ r :: l2) pats limit init_state (l1 ++ l2).
Proof.
  intros Hwf Hin Hmatch.
  assert (Hig : ignored search pats r = true) by (apply ignored_iff; eauto).
  split; [|split].
  - intros records st. by apply check_body_ignored.
  - intros records st. by apply check_loop_skip_ignored.
  - unfold check_main. by apply check_loop_skip_ignored.
Qed.

(** A CNAME whose target the pattern finds, between two A records. *)
Lemma ignored_record_is_skipped_witness :
  check_main Sample.resolve_all Sample.search_exact
    ([Sample.rec_web] ++ Sample.rec_dup_cname :: [Sample.rec_web]) ["ign.example.com"] (Some 2%Z)
  = check_loop Sample.resolve_all Sample.search_exact
      ([Sample.rec_web] ++ Sample.rec_dup_cname :: [Sample.rec_web]) ["ign.example.com"]
      (Some 2%Z) init_state ([Sample.rec_web] ++ [Sample.rec_web]).
Proof.
  apply (ignored_record_is_skipped Sample.resolve_all string Sample.search_exact
           ["ign.example.com"] (Some 2%Z) [Sample.rec_web] [Sample.rec_web]
           Sample.rec_dup_cname "ign.example.com").
  - reflexivity.
  - left. reflexivity.
  - right. exists "ign.example.com". repeat split; done.
Defined.

(** ** The run of route53_validator.py *)

Section ValidatorFacts.

Variable oracle : string -> option (list string).
Variable pattern : Type.
Variable search : pattern -> string -> bool.
Variable pats : list pattern.
Variable limit : option Z.
Variable records : list record.

(** The ways the loop body can return. *)
Lemma validator_body_cases (rs : run_state) (seen : gset string) (r : record)
    (f : flow) (rs' : run_state) (seen' : gset string) :
  validator_body oracle search pats limit (rs, seen) r = Ret (f, (rs', seen')) ->
  (f = Break /\ limit_reached limit rs = true /\ rs' = rs /\ seen' = seen) \/
  (f = Continue /\ rs' = rs /\ seen' = seen /\
   (supported r = false \/ normalize (Name r) ∈ seen)) \/
  (f = Continue /\ supported r = true /\ (normalize (Name r) ∉ seen) /\
   seen' = {[normalize (Name r)]} ∪ seen /\
   ((rs' = rs /\ validator_ignored search pats r = true) \/
    (validator_ignored search pats r = false /\
     exists final st_text ips,
       validator_classify oracle r (normalize (Name r)) = Ret (final, st_text, ips) /\
       rs' = append_report rs (normalize (Name r)) final st_text ips))).
Proof.
  unfold validator_body, validator_ignored.
  destruct (limit_reached limit rs) eqn:Hlim.
  { intros [= <- <- <-]. by left. }
  destruct (supported r) eqn:Hsup; simpl.
  2: { intros [= <- <- <-]. right. left. auto. }
  destruct (decide (normalize (Name r) ∈ seen)) as [Hin|Hnin].
  { intros [= <- <- <-]. right. left. auto. }
  destruct (ignore_match search pats (normalize (Name r)) (validator_target r)).
  { intros [= <- <- <-]. right. right. repeat split; auto. }
  destruct (validator_classify oracle r (normalize (Name r))) as [[[final st_text] ips]| |];
    simpl; try done.
  intros [= <- <- <-]. right. right. repeat split; auto.
  right. split; [done|]. by exists final, st_text, ips.
Qed.

Lemma find_app_first {A : Type} (g : A -> bool) (p l : list A) (x : A) :
  (forall y, In y p -> g y = false) -> g x = true ->
  find g (p ++ x :: l)%list = Some x.
Proof.
  intros Hp Hx. induction p as [|y p IH]; simpl.
  - by rewrite Hx.
  - rewrite (Hp y) by (by left). apply IH. intros z Hz. apply Hp. by right.
Qed.

Lemma find_app_in {A : Type} (g : A -> bool) (p l : list A) (y : A) :
  In y p -> g y = true -> exists z, In z p /\ find g (p ++ l)%list = Some z.
Proof.
  intros Hy Hg. induction p as [|a p IH]; [done|]. simpl.
  destruct (g a) eqn:Ha.
  - exists a. split; [by left | done].
  - destruct Hy as [->|Hy]; [congruence|].
    destruct (IH Hy) as (z & Hz & Hfind). exists z. split; [by right | done].
Qed.

(** One run of the body keeps the invariant, the prefix growing by the
    record. *)
Lemma validator_body_inv (p l : list record) (r : record) (rs rs' : run_state)
    (seen seen' : gset string) :
  records = (p ++ r :: l)%list ->
  validator_inv oracle search pats limit records p rs seen ->
  validator_body oracle search pats limit (rs, seen) r = Ret (Continue, (rs', seen')) ->
  validator_inv oracle search pats limit records (p ++ [r])%list rs' seen'.
Proof.
  intros Hrec [Hsc Hss Hrs Hnd Hfirst Hcomp] Hbody.
  apply validator_body_cases in Hbody
    as [(? & _)|[(_ & -> & -> & Hskip)|(_ & Hsup & Hnin & -> & Hrest)]]; [done| |].
  - (* an unsupported record or a duplicate *)
    split; auto.
    + intros x Hx Hsx. apply in_app_or in Hx as [Hx|[<-|[]]]; [by apply Hsc|].
      destruct Hskip as [Hskip|Hskip]; [congruence | done].
    + intros name Hname. destruct (Hss name Hname) as (x & Hx & Hsx & Hnx).
      exists x. split; [apply in_or_app; by left | done].
    + intros Hlim x Hx Hsx Hfx Hix.
      apply in_app_or in Hx as [Hx|[<-|[]]]; [by apply Hcomp|].
      destruct Hskip as [Hskip|Hskip]; [congruence|].
      destruct (Hss _ Hskip) as (y & Hy & Hsy & Hny).
      destruct (find_app_in (fun x => supported x && String.eqb (normalize (Name x))
                                        (normalize (Name r))) p (r :: l) y Hy)
        as (z & Hz & Hfind).
      { rewrite Hsy, Hny. simpl. apply String.eqb_refl. }
      pose proof Hfx as Hfirst_r.
      unfold first_supported in Hfx. rewrite Hrec, Hfind in Hfx.
      injection Hfx as ->. by apply Hcomp.
  - (* a first record of its name *)
    assert (Hfr : first_supported records (normalize (Name r)) = Some r).
    { unfold first_supported. rewrite Hrec. apply find_app_first.
      - intros y Hy. destruct (supported y) eqn:Hsy; [|done]. simpl.
        apply String.eqb_neq. intros Heq. apply Hnin. rewrite <- Heq. by apply Hsc.
      - rewrite Hsup. simpl. apply String.eqb_refl. }
    assert (Hseen1 : forall x, In x (p ++ [r])%list -> supported x = true ->
              normalize (Name x) ∈ ({[normalize (Name r)]} ∪ seen : gset string)).
    { intros x Hx Hsx. apply elem_of_union.
      apply in_app_or in Hx as [Hx|[<-|[]]].
      - right. by apply Hsc.
      - left. by apply elem_of_singleton. }
    assert (Hseen2 : forall name, name ∈ ({[normalize (Name r)]} ∪ seen : gset string) ->
              exists x, In x (p ++ [r])%list /\ supported x = true /\ normalize (Name x) = name).
    { intros name Hname. apply elem_of_union in Hname as [Hname|Hname].
      - apply elem_of_singleton in Hname as ->. exists r.
        split; [apply in_or_app; right; by left | done].
      - destruct (Hss name Hname) as (x & Hx & Hsx & Hnx).
        exists x. split; [apply in_or_app; by left | done]. }
    destruct Hrest as [[-> Hig]|(Hig & final & st_text & ips & Hcl & ->)].
    + (* ignored *)
      split; auto.
      * intros rep Hrep. apply elem_of_union. right. by apply Hrs.
      * intros Hlim x Hx Hsx Hfx Hix.
        apply in_app_or in Hx as [Hx|[<-|[]]]; [by apply Hcomp | congruence].
    + (* classified *)
      split; auto; simpl.
      * intros rep Hrep. apply elem_of_union.
        apply in_app_or in Hrep as [Hrep|[<-|[]]]; [right; by apply Hrs|].
        left. by apply elem_of_singleton.
      * rewrite map_app. simpl. apply NoDup_app. split; [done|]. split.
        -- intros name Hname Hname'. apply list_elem_of_In in Hname.
           apply in_map_iff in Hname as (rep & <- & Hrep).
           apply list_elem_of_singleton in Hname'. apply Hnin.
           rewrite <- Hname'. by apply Hrs.
        -- apply NoDup_singleton.
      * intros rep Hrep. apply in_app_or in Hrep as [Hrep|[<-|[]]]; [by apply Hfirst|].
        exists r. split; [exact Hfr|]. by exists final, st_text, ips.
      * intros Hlim x Hx Hsx Hfx Hix. apply in_app_or in Hx as [Hx|[<-|[]]].
        -- destruct (Hcomp Hlim x Hx Hsx Hfx Hix) as (rep & Hrep & Hsrc).
           exists rep. split; [apply in_or_app; by left | done].
        -- eexists. split; [apply in_or_app; right; by left | done].
Qed.

(** The loop keeps the invariant, and without a limit it goes through the
    whole listing. *)
Lemma validator_loop_inv (l p : list record) (rs rs' : run_state) (seen seen' : gset string) :
  records = (p ++ l)%list ->
  validator_inv oracle search pats limit records p rs seen ->
  validator_loop oracle search pats limit (rs, seen) l = Ret (rs', seen') ->
  exists p', validator_inv oracle search pats limit records p' rs' seen' /\
    (limit = None -> p' = records).
Proof.
  revert p rs seen. induction l as [|r l IH]; intros p rs seen Hrec Hinv.
  - intros [= <- <-]. exists p. split; [done|]. intros _. by rewrite Hrec, app_nil_r.
  - unfold validator_loop. rewrite for_loop_cons.
    destruct (validator_body oracle search pats limit (rs, seen) r)
      as [[f [rs1 seen1]]| |] eqn:Hbody; try done.
    rewrite bind_ret. destruct f.
    + intros Hloop. apply (IH (p ++ [r])%list rs1 seen1); [|by eapply validator_body_inv|done].
      by rewrite <- app_assoc.
    + cbn beta iota. intros [= <- <-].
      apply validator_body_cases in Hbody
        as [(_ & Hlim & -> & ->)|[(? & _)|(? & _)]]; try done.
      exists p. split; [done|]. intros ->. done.
Qed.

Lemma validator_inv_init :
  validator_inv oracle search pats limit records [] init_state ∅.
Proof.
  split; simpl; try done. apply NoDup_nil_2.
Qed.

End ValidatorFacts.

(** C8, the claim as stated fails: the first record named dup.example.com
    is a CNAME ignored for its target, the second an A record that no
    pattern matches; the second is the first occurrence that is not
    ignored, and yet it is passed over as a duplicate: [all_results] holds
    no report for the name. *)
Lemma ignored_first_occurrence_shadows :
  validator_ignored Sample.search_exact ["ign.example.com"]
    (Sample.rec_dup_a (Some ["10.0.0.1"])) = false /\
  validator_main Sample.resolve_all Sample.search_exact
    [Sample.rec_dup_cname; Sample.rec_dup_a (Some ["10.0.0.1"])] ["ign.example.com"] None
  = Ret init_state.
Proof. split; reflexivity. Qed.

(** C8, amended: in a run of the validator that returns, [all_results]
    holds at most one report per normalized name, and each report is built
    from the first record of type A or CNAME that carries its name, whether
    or not a later one would fare differently; without a limit, every name
    whose first A or CNAME record is not ignored has its report, hence
    exactly one. In particular two A records named dup.example.com, with
    no ignore pattern and no limit, give exactly one report, built from the
    first. *)
Theorem strict_dedup
    (oracle : string -> option (list string)) (pattern : Type)
    (search : pattern -> string -> bool)
    (records : list record) (pats : list pattern) (limit : option Z) (out : run_state) :
  validator_main oracle search records pats limit = Ret out ->
  NoDup (map source (all_results out)) /\
  (forall rep, In rep (all_results out) ->
     exists r, first_supported records (source rep) = Some r /\ built_from oracle r rep) /\
  (limit = None ->
   forall name r, first_supported records name = Some r ->
     validator_ignored search pats r = false ->
     exists rep, In rep (all_results out) /\ source rep = name /\ built_from oracle r rep) /\
  (forall v1 v2, exists out2 rep,
     validator_main oracle search [Sample.rec_dup_a v1; Sample.rec_dup_a v2] [] None
       = Ret out2 /\
     all_results out2 = [rep] /\ source rep = "dup.example.com" /\
     built_from oracle (Sample.rec_dup_a v1) rep).
Proof.
  unfold validator_main. intros Hmain.
  destruct (validator_loop oracle search pats limit (init_state, ∅) records)
    as [[rs seen]| |] eqn:Hloop; try done.
  rewrite bind_ret in Hmain. injection Hmain as ->.
  destruct (validator_loop_inv oracle pattern search pats limit records records []
              init_state out ∅ seen eq_refl
              (validator_inv_init oracle pattern search pats limit records) Hloop)
    as (p' & [Hsc Hss Hrs Hnd Hfirst Hcomp] & Hall).
  split; [exact Hnd|]. split; [exact Hfirst|]. split.
  - intros Hlim name r Hfr Hig. rewrite (Hall Hlim) in Hcomp.
    pose proof Hfr as Hfind. unfold first_supported in Hfind.
    apply find_some in Hfind as [Hin Hr]. apply andb_prop in Hr as [Hsup Hname].
    apply String.eqb_eq in Hname. subst name.
    destruct (Hcomp Hlim r Hin Hsup Hfr Hig) as (rep & Hrep & Hsrc).
    exists rep. split; [done|]. split; [done|].
    destruct (Hfirst rep Hrep) as (r' & Hr' & Hbuilt).
    rewrite Hsrc, Hfr in Hr'. by injection Hr' as <-.
  - intros v1 v2. unfold built_from.
    destruct (oracle "dup.example.com") as [[|ip ips]|] eqn:Hdup;
      eexists _, _; (split; [vm_compute; rewrite Hdup; reflexivity|]);
      (split; [reflexivity|]); (split; [reflexivity|]);
      eexists _, _, _; (split; [vm_compute; rewrite Hdup; reflexivity|]); reflexivity.
Qed.

(** Two A records of one name, and a third record. *)
Lemma strict_dedup_witness :
  exists out,
    validator_main Sample.resolve_all Sample.search_nothing
      [Sample.rec_dup_a None; Sample.rec_web; Sample.rec_dup_a None] [] None = Ret out /\
    NoDup (map source (all_results out)).
Proof.
  eexists. split; [vm_compute; reflexivity|].
  apply (proj1 (strict_dedup Sample.resolve_all unit Sample.search_nothing
                  [Sample.rec_dup_a None; Sample.rec_web; Sample.rec_dup_a None] [] None _
                  eq_refl)).
Defined.

(** C10: in the validator, a CNAME record that the loop processes (the
    limit is not reached, its name is new, it is not ignored) gets one
    report whose partition and exported addresses depend on the lookup of
    its source alone: the report joins [resolved] exactly when the source
    resolves to a non-empty list, [unresolved] otherwise, and its addresses
    are those of the source or the sentinel. The lookup of the target only
    shows in the status, and only when the source resolves; the target
    itself is the final domain. *)
Theorem cname_partition_by_source
    (oracle : string -> option (list string)) (pattern : Type)
    (search : pattern -> string -> bool) (pats : list pattern) (limit : option Z)
    (rs : run_state) (seen : gset string) (r : record) (v : string) :
  Type_ r = "CNAME" ->
  first_value r = Ret v ->
  limit_reached limit rs = false ->
  normalize (Name r) ∉ seen ->
  validator_ignored search pats r = false ->
  let src := normalize (Name r) in
  let tgt := normalize v in
  let rep :=
    mkReport src tgt
      (if truthy_ips (oracle src) then
         if truthy_ips (oracle tgt) then "✅ Source resolves; ✅ Target resolves"
         else "✅ Source resolves; ❌ Target does not resolve"
       else "❌ Source does not resolve")
      (match oracle src with
       | Some (ip :: ips) => Str.join ", " (ip :: ips)
       | _ => "No DNS resolution"
       end) in
  validator_body oracle search pats limit (rs, seen) r
  = Ret (Continue,
         (mkState
            (if truthy_ips (oracle src) then unresolved rs else unresolved rs ++ [rep])
            (if truthy_ips (oracle src) then resolved rs ++ [rep] else resolved rs)
            (all_results rs ++ [rep])
            (S (processed_count rs)),
          {[src]} ∪ seen)).
Proof.
  intros Ht Hv Hlim Hnin Hig. unfold validator_ignored in Hig.
  unfold validator_body, validator_classify, supported.
  rewrite Hlim, Ht, Hv. simpl negb. cbn iota.
  destruct (decide (normalize (Name r) ∈ seen)); [done|].
  rewrite Hig.
  change (String.eqb "CNAME" "CNAME") with true. cbn iota.
  rewrite !bind_ret. unfold append_report, make_report.
  destruct (oracle (normalize (Name r))) as [[|ip ips]|];
    destruct (oracle (normalize v)) as [[|ip' ips']|]; reflexivity.
Qed.

(** a.example.com, a CNAME to b.example.com, when only b.example.com
    resolves: the report is unresolved. *)
Lemma cname_partition_by_source_witness :
  validator_body Sample.resolve_b_only Sample.search_nothing [] None (init_state, ∅)
    Sample.rec_a
  = Ret (Continue,
         (mkState
            [mkReport "a.example.com" "b.example.com" "❌ Source does not resolve"
               "No DNS resolution"]
            []
            [mkReport "a.example.com" "b.example.com" "❌ Source does not resolve"
               "No DNS resolution"]
            1,
          {[ "a.example.com" ]})).
Proof.
  assert (Hnin : normalize (Name Sample.rec_a) ∉ (∅ : gset string))
    by apply not_elem_of_empty.
  exact (cname_partition_by_source Sample.resolve_b_only unit Sample.search_nothing
           [] None init_state ∅ Sample.rec_a "b.example.com"
           eq_refl eq_refl eq_refl Hnin eq_refl).
Defined.

(** ** More on normalize *)

Section NormalizeMore.

Lemma lower_char_is_dot (c : ascii) : Str.is_dot (Str.lower_char c) = Str.is_dot c.
Proof. destruct c as [[] [] [] [] [] [] [] []]; reflexivity. Qed.

Lemma lower_char_idem (c : ascii) : Str.lower_char (Str.lower_char c) = Str.lower_char c.
Proof. destruct c as [[] [] [] [] [] [] [] []]; reflexivity. Qed.

Lemma lower_char_not_upper (c : ascii) : Str.is_upper (Str.lower_char c) = false.
Proof. destruct c as [[] [] [] [] [] [] [] []]; reflexivity. Qed.

Lemma lower_char_fix (c : ascii) : Str.is_upper c = false -> Str.lower_char c = c.
Proof. unfold Str.lower_char. by intros ->. Qed.

Lemma lower_idem (s : string) : Str.lower (Str.lower s) = Str.lower s.
Proof. induction s as [|c s IH]; simpl; [done|]. by rewrite lower_char_idem, IH. Qed.

Lemma lower_no_upper (s : string) : Text.no_upper (Str.lower s) = true.
Proof. induction s as [|c s IH]; simpl; [done|]. by rewrite lower_char_not_upper, IH. Qed.

Lemma lower_fix (s : string) : Text.no_upper s = true -> Str.lower s = s.
Proof.
  induction s as [|c s IH]; simpl; [done|]. intros H.
  apply andb_prop in H as [Hc Hs]. apply negb_true_iff in Hc.
  by rewrite (lower_char_fix c Hc), (IH Hs).
Qed.

Lemma rstrip_dot_lower (s : string) :
  Str.rstrip_dot (Str.lower s) = Str.lower (Str.rstrip_dot s).
Proof.
  induction s as [|c s IH]; simpl; [done|]. rewrite IH.
  destruct (Str.rstrip_dot s) as [|a r]; simpl; [|done].
  rewrite lower_char_is_dot. by destruct (Str.is_dot c).
Qed.

Lemma rstrip_dot_idem (s : string) :
  Str.rstrip_dot (Str.rstrip_dot s) = Str.rstrip_dot s.
Proof.
  induction s as [|c s IH]; simpl; [done|].
  destruct (Str.rstrip_dot s) as [|a r] eqn:E.
  - destruct (Str.is_dot c) eqn:Hc; simpl; [done|]. by rewrite Hc.
  - change (Str.rstrip_dot (String c (String a r)))
      with (match Str.rstrip_dot (String a r) with
            | EmptyString => if Str.is_dot c then EmptyString else String c EmptyString
            | String a' r' => String c (String a' r')
            end).
    by rewrite IH.
Qed.

Lemma last_char_lower (s : string) :
  Str.last_char (Str.lower s) = Str.lower_char <$> Str.last_char s.
Proof.
  induction s as [|c s IH]; [done|]. destruct s as [|a s]; [done|].
  exact IH.
Qed.

Lemma lower_char_ascii (c : ascii) :
  (nat_of_ascii (Str.lower_char c) <? 128)%nat = (nat_of_ascii c <? 128)%nat.
Proof. destruct c as [[] [] [] [] [] [] [] []]; reflexivity. Qed.

Lemma lower_ascii (s : string) : Text.is_ascii (Str.lower s) = Text.is_ascii s.
Proof. induction s as [|c s IH]; simpl; [done|]. by rewrite lower_char_ascii, IH. Qed.

Lemma rstrip_dot_ascii (s : string) :
  Text.is_ascii s = true -> Text.is_ascii (Str.rstrip_dot s) = true.
Proof.
  induction s as [|c s IH]; simpl; [done|]. intros H.
  apply andb_prop in H as [Hc Hs]. specialize (IH Hs).
  destruct (Str.rstrip_dot s) as [|a r].
  - destruct (Str.is_dot c); [done|]. simpl. by rewrite Hc.
  - simpl in *. by rewrite Hc, IH.
Qed.

Lemma normalize_with_ascii (lower : string -> string) (name : string) :
  folds_ascii lower -> Text.is_ascii name = true ->
  normalize_with lower name = normalize name /\ Text.is_ascii (normalize name) = true.
Proof.
  intros Hlower Hascii. unfold normalize_with, normalize.
  pose proof (rstrip_dot_ascii name Hascii) as Hstem.
  split; [by apply Hlower | by rewrite lower_ascii].
Qed.

End NormalizeMore.

(** X1: on a name of ASCII characters [normalize] is idempotent, for every
    lower-casing that folds A-Z on such names as str.lower() does: the
    normalized name is again a name of ASCII characters and is left as it
    is, so that normalizing a target in [main] and again in
    [resolve_cname_chain] is the same as normalizing it once. *)
Theorem normalize_idempotent (lower : string -> string) (name : string) :
  folds_ascii lower ->
  Text.is_ascii name = true ->
  normalize_with lower (normalize_with lower name) = normalize_with lower name /\
  Text.is_ascii (normalize_with lower name) = true.
Proof.
  intros Hlower Hascii.
  destruct (normalize_with_ascii lower name Hlower Hascii) as [Heq Hascii'].
  rewrite Heq.
  destruct (normalize_with_ascii lower (normalize name) Hlower Hascii') as [Heq' _].
  rewrite Heq'. split; [|done].
  unfold normalize. by rewrite rstrip_dot_lower, rstrip_dot_idem, lower_idem.
Qed.

Lemma normalize_idempotent_witness :
  normalize_with Str.lower (normalize_with Str.lower "WWW.Example.COM..")
  = normalize_with Str.lower "WWW.Example.COM.." /\
  Text.is_ascii (normalize_with Str.lower "WWW.Example.COM..") = true.
Proof.
  apply (normalize_idempotent Str.lower "WWW.Example.COM..").
  - intros s _. reflexivity.
  - reflexivity.
Defined.

(** X2: among the names of ASCII characters, those [normalize] leaves
    unchanged are exactly those that do not end in a dot and hold no letter
    of A-Z, and every result of [normalize] on such a name is one of them;
    this for every lower-casing that folds A-Z on such names as
    str.lower() does. *)
Theorem normalize_canonical (lower : string -> string) (name : string) :
  folds_ascii lower ->
  Text.is_ascii name = true ->
  (normalize_with lower name = name <->
   Str.last_char name <> Some Str.dot /\ Text.no_upper name = true) /\
  Str.last_char (normalize_with lower name) <> Some Str.dot /\
  Text.no_upper (normalize_with lower name) = true.
Proof.
  intros Hlower Hascii.
  destruct (normalize_with_ascii lower name Hlower Hascii) as [-> _].
  assert (Hlast : Str.last_char (normalize name) <> Some Str.dot).
  { unfold normalize. rewrite last_char_lower.
    pose proof (rstrip_dot_last name) as Hl.
    destruct (Str.last_char (Str.rstrip_dot name)) as [c|]; [|done].
    simpl. intros [= Hc]. apply Hl. f_equal.
    pose proof (lower_char_is_dot c) as Hd. unfold Str.is_dot in Hd.
    rewrite Hc, Ascii.eqb_refl in Hd. symmetry in Hd. by apply Ascii.eqb_eq in Hd. }
  assert (Hup : Text.no_upper (normalize name) = true) by apply lower_no_upper.
  split; [|done]. split.
  - intros Heq. by rewrite <- Heq.
  - intros [Hl Hu]. unfold normalize. by rewrite (rstrip_dot_fix name Hl), (lower_fix name Hu).
Qed.

Lemma normalize_canonical_witness :
  (normalize_with Str.lower "www.example.com" = "www.example.com" <->
   Str.last_char "www.example.com" <> Some Str.dot /\
   Text.no_upper "www.example.com" = true) /\
  Str.last_char (normalize_with Str.lower "www.example.com") <> Some Str.dot /\
  Text.no_upper (normalize_with Str.lower "www.example.com") = true.
Proof.
  apply (normalize_canonical Str.lower "www.example.com").
  - intros s _. reflexivity.
  - reflexivity.
Defined.

(** X3: trailing dots never matter to [normalize], whatever the
    lower-casing does: a name and the name followed by any number of dots
    have the same normalized name. Nor does the case of the letters of a
    name of ASCII characters, for a lower-casing that folds A-Z on such
    names as str.lower() does: the name and its lower-casing have the same
    normalized name. *)
Theorem normalize_insensitive (lower : string -> string) (name : string) (k : nat) :
  normalize_with lower (name ++ Str.dots k) = normalize_with lower name /\
  (folds_ascii lower -> Text.is_ascii name = true ->
   normalize_with lower (lower name) = normalize_with lower name).
Proof.
  split.
  - unfold normalize_with. by rewrite rstrip_dot_app_dots.
  - intros Hlower Hascii. rewrite (Hlower name Hascii).
    assert (Hascii' : Text.is_ascii (Str.lower name) = true) by by rewrite lower_ascii.
    destruct (normalize_with_ascii lower name Hlower Hascii) as [-> _].
    destruct (normalize_with_ascii lower (Str.lower name) Hlower Hascii') as [-> _].
    unfold normalize. by rewrite rstrip_dot_lower, lower_idem.
Qed.

Lemma normalize_insensitive_witness :
  normalize_with Str.lower (Str.lower "WWW.Example.COM.")
  = normalize_with Str.lower "WWW.Example.COM.".
Proof.
  apply (proj2 (normalize_insensitive Str.lower "WWW.Example.COM." 0)).
  - intros s _. reflexivity.
  - reflexivity.
Defined.

(** ** More on the chain resolver *)

Section ChainMore.

Variable oracle : string -> option (list string).
Variable records : list record.

(** The ways the loop body returns an outcome. *)
Lemma chain_body_done (t : gset string) (c name st_text : string)
    (ips : option (list string)) :
  chain_body oracle records t c = Done (Ret (name, st_text, ips)) ->
  name = c /\
  ((find_record records c = None /\ ips = oracle c /\
    st_text = if truthy_ips ips then "Resolved externally"
              else "Does not have an IP match") \/
   (exists m, find_record records c = Some m /\ Type_ m = "A" /\ ips = oracle c /\
      st_text = if truthy_ips ips then "Externally resolvable A record"
                else "A record does not resolve externally") \/
   (exists m, find_record records c = Some m /\ Type_ m <> "A" /\ Type_ m <> "CNAME" /\
      ips = None /\ st_text = "Unsupported record type: " ++ Type_ m)).
Proof.
  unfold chain_body. destruct (find_record records c) as [m|].
  - destruct (String.eqb (Type_ m) "A") eqn:HA.
    + apply String.eqb_eq in HA. intros [= <- <- <-]. split; [done|].
      right. left. by exists m.
    + apply String.eqb_neq in HA.
      destruct (String.eqb (Type_ m) "CNAME") eqn:HC.
      * by destruct (first_value m).
      * apply String.eqb_neq in HC. intros [= <- <- <-]. split; [done|].
        right. right. by exists m.
  - intros [= <- <- <-]. split; [done|]. by left.
Qed.

Lemma chain_body_raise (t : gset string) (c : string) (e : exn) :
  chain_body oracle records t c = Done (Raise e) ->
  exists m, find_record records c = Some m /\ Type_ m = "CNAME" /\ first_value m = Raise e.
Proof.
  unfold chain_body. destruct (find_record records c) as [m|]; [|done].
  destruct (String.eqb (Type_ m) "A"); [done|].
  destruct (String.eqb (Type_ m) "CNAME") eqn:HC; [|done].
  apply String.eqb_eq in HC.
  destruct (first_value m) as [v|e'|] eqn:Hv; try done.
  intros [= <-]. by exists m.
Qed.

Lemma leads_to_next (t : gset string) (c c' : string) :
  leads_to records t c -> next_hop records c = Some c' ->
  leads_to records ({[c]} ∪ t) c'.
Proof.
  intros Ht Hn n Hin. apply elem_of_union in Hin as [Hin|Hin].
  - apply elem_of_singleton in Hin as ->. exists 0. simpl. by rewrite Hn.
  - destruct (Ht n Hin) as [k Hk]. exists (S k). by apply hops_snoc with c.
Qed.

(** What the loop returns, from a state whose tested names lead to the
    current one. *)
Lemma chain_loop_sound (fuel : nat) (t : gset string) (c name st_text : string)
    (ips : option (list string)) :
  leads_to records t c ->
  fst (chain_loop oracle fuel records t c) = Ret (name, st_text, ips) ->
  (find_record records name = None /\ ips = oracle name /\
   st_text = if truthy_ips ips then "Resolved externally"
             else "Does not have an IP match") \/
  (exists m, find_record records name = Some m /\ Type_ m = "A" /\ ips = oracle name /\
     st_text = if truthy_ips ips then "Externally resolvable A record"
               else "A record does not resolve externally") \/
  (exists m, find_record records name = Some m /\ Type_ m <> "A" /\ Type_ m <> "CNAME" /\
     ips = None /\ st_text = "Unsupported record type: " ++ Type_ m) \/
  (on_cycle records name /\ ips = None /\ st_text = "CNAME loop detected").
Proof.
  revert t c. induction fuel as [|fuel IH]; intros t c Ht; simpl.
  - destruct (decide (c ∈ t)) as [Hin|]; [|done]. simpl.
    intros [= <- <- <-]. right. right. right. split; [by apply Ht | done].
  - destruct (decide (c ∈ t)) as [Hin|Hnin]; simpl.
    { intros [= <- <- <-]. right. right. right. split; [by apply Ht | done]. }
    pose proof (chain_body_next oracle records t c) as Hb.
    destruct (next_hop records c) as [c'|] eqn:Hn.
    + destruct Hb as [-> _].
      specialize (IH ({[c]} ∪ t) c' (leads_to_next t c c' Ht Hn)).
      by destruct (chain_loop oracle fuel records ({[c]} ∪ t) c').
    + destruct Hb as (r & Hr & _). rewrite Hr. simpl. intros ->.
      apply chain_body_done in Hr as [-> Hr].
      destruct Hr as [H|[H|H]]; auto.
Qed.

(** The name the loop ends on is reached along CNAME edges, in no more
    steps than the body ran; so is the record it raises on. *)
Lemma chain_loop_reach (fuel : nat) (t : gset string) (c : string) :
  match fst (chain_loop oracle fuel records t c) with
  | Ret (name, _, _) =>
      exists k, k <= snd (chain_loop oracle fuel records t c) /\
        hops records k c = Some name
  | Raise e =>
      exists k name m, hops records k c = Some name /\
        find_record records name = Some m /\ Type_ m = "CNAME" /\ first_value m = Raise e
  | OutOfFuel => True
  end.
Proof.
  revert t c. induction fuel as [|fuel IH]; intros t c; simpl.
  - destruct (decide (c ∈ t)); simpl; [|done]. exists 0. split; [lia | done].
  - destruct (decide (c ∈ t)); simpl.
    { exists 0. split; [lia | done]. }
    pose proof (chain_body_next oracle records t c) as Hb.
    destruct (next_hop records c) as [c'|] eqn:Hn.
    + destruct Hb as [-> _]. specialize (IH ({[c]} ∪ t) c').
      destruct (chain_loop oracle fuel records ({[c]} ∪ t) c') as [r0 n0]. simpl in *.
      destruct r0 as [[[name st_text] ips]|e|]; [| |done].
      * destruct IH as (k & Hk & Hhops). exists (S k). split; [lia|].
        simpl. by rewrite Hn.
      * destruct IH as (k & name & m & Hhops & Hm). exists (S k), name, m.
        split; [|done]. simpl. by rewrite Hn.
    + destruct Hb as (r & Hr & _). rewrite Hr. simpl.
      destruct r as [[[name st_text] ips]|e|]; [| |done].
      * apply chain_body_done in Hr as [-> _]. exists 0. split; [lia | done].
      * apply chain_body_raise in Hr as (m & Hm). exists 0, c, m. done.
Qed.

End ChainMore.

(** X4: what [resolve_cname_chain] returns is sound. The name it returns
    either has no record in the listing, and the status and the addresses
    are those of its live lookup; or its first record is an A record, and
    the same holds with the A statuses; or its first record has another type
    than A and CNAME, which the status names, with no addresses; or the name
    lies on a CNAME cycle of the listing, with 'CNAME loop detected' and no
    addresses. A loop is never reported where there is none. *)
Theorem resolve_cname_chain_sound
    (oracle : string -> option (list string)) (records : list record)
    (domain_name name st_text : string) (ips : option (list string)) :
  resolve_cname_chain oracle records domain_name = Ret (name, st_text, ips) ->
  (find_record records name = None /\ ips = oracle name /\
   st_text = if truthy_ips ips then "Resolved externally"
             else "Does not have an IP match") \/
  (exists m, find_record records name = Some m /\ Type_ m = "A" /\ ips = oracle name /\
     st_text = if truthy_ips ips then "Externally resolvable A record"
               else "A record does not resolve externally") \/
  (exists m, find_record records name = Some m /\ Type_ m <> "A" /\ Type_ m <> "CNAME" /\
     ips = None /\ st_text = "Unsupported record type: " ++ Type_ m) \/
  (on_cycle records name /\ ips = None /\ st_text = "CNAME loop detected").
Proof.
  unfold resolve_cname_chain, resolve_cname_chain_count.
  apply chain_loop_sound. intros n Hn. by apply not_elem_of_empty in Hn.
Qed.

Lemma resolve_cname_chain_sound_witness :
  (find_record [Sample.rec_x; Sample.rec_y] "x" = None /\ None = Sample.resolve_none "x" /\
   "CNAME loop detected" = "Does not have an IP match") \/
  (exists m, find_record [Sample.rec_x; Sample.rec_y] "x" = Some m /\ Type_ m = "A" /\
     None = Sample.resolve_none "x" /\
     "CNAME loop detected" = "A record does not resolve externally") \/
  (exists m, find_record [Sample.rec_x; Sample.rec_y] "x" = Some m /\ Type_ m <> "A" /\
     Type_ m <> "CNAME" /\ None = (None : option (list string)) /\
     "CNAME loop detected" = "Unsupported record type: " ++ Type_ m) \/
  (on_cycle [Sample.rec_x; Sample.rec_y] "x" /\ None = (None : option (list string)) /\
   "CNAME loop detected" = "CNAME loop detected").
Proof.
  apply (resolve_cname_chain_sound Sample.resolve_none [Sample.rec_x; Sample.rec_y]
           "x" "x" "CNAME loop detected" None).
  reflexivity.
Defined.

(** X5: the name [resolve_cname_chain] returns is reached from the
    normalized starting name by following CNAME records of the listing
    (the first record of each name, which must carry a value), in no more
    edges than the loop body ran. *)
Theorem resolve_cname_chain_reaches
    (oracle : string -> option (list string)) (records : list record)
    (domain_name name st_text : string) (ips : option (list string)) :
  resolve_cname_chain oracle records domain_name = Ret (name, st_text, ips) ->
  exists k, k <= snd (resolve_cname_chain_count oracle records domain_name) /\
    hops records k (normalize domain_name) = Some name.
Proof.
  unfold resolve_cname_chain, resolve_cname_chain_count. intros H.
  pose proof (chain_loop_reach oracle records (S (size (index_names records))) ∅
                (normalize domain_name)) as Hr.
  by rewrite H in Hr.
Qed.

Lemma resolve_cname_chain_reaches_witness :
  exists k,
    k <= snd (resolve_cname_chain_count Sample.resolve_all
                [Sample.rec_a; Sample.rec_b None] "a.example.com") /\
    hops [Sample.rec_a; Sample.rec_b None] k (normalize "a.example.com")
    = Some "b.example.com".
Proof.
  apply (resolve_cname_chain_reaches Sample.resolve_all [Sample.rec_a; Sample.rec_b None]
           "a.example.com" "b.example.com" "Externally resolvable A record"
           (Some ["1.2.3.4"])).
  reflexivity.
Defined.

(** X6: [resolve_cname_chain] returns whenever every CNAME record of the
    listing carries a value; and when it raises, it has followed the CNAME
    records from the starting name to a name whose first record is a CNAME
    without a value, the exception being that of reading the value. *)
Theorem resolve_cname_chain_raises_only_on_missing_value
    (oracle : string -> option (list string)) (records : list record)
    (domain_name : string) :
  (Forall (fun r => well_formed r = true) records ->
   exists name st_text ips,
     resolve_cname_chain oracle records domain_name = Ret (name, st_text, ips)) /\
  (forall e, resolve_cname_chain oracle records domain_name = Raise e ->
   exists k name m,
     hops records k (normalize domain_name) = Some name /\
     find_record records name = Some m /\ Type_ m = "CNAME" /\
     first_value m = Raise e /\ has_value m = false).
Proof.
  split.
  - intros Hwf. by apply resolve_cname_chain_returns.
  - unfold resolve_cname_chain, resolve_cname_chain_count. intros e H.
    pose proof (chain_loop_reach oracle records (S (size (index_names records))) ∅
                  (normalize domain_name)) as Hr.
    rewrite H in Hr. destruct Hr as (k & name & m & Hk & Hm & Ht & Hv).
    exists k, name, m. repeat split; try done.
    unfold first_value in Hv. unfold has_value.
    by destruct (ResourceRecords m) as [[|v l]|].
Qed.

Lemma resolve_cname_chain_raises_only_on_missing_value_witness :
  exists name st_text ips,
    resolve_cname_chain Sample.resolve_all [Sample.rec_a; Sample.rec_b None] "a.example.com"
    = Ret (name, st_text, ips).
Proof.
  apply (proj1 (resolve_cname_chain_raises_only_on_missing_value Sample.resolve_all
                  [Sample.rec_a; Sample.rec_b None] "a.example.com")).
  repeat constructor.
Defined.

(** X7: a record whose normalized name an earlier record of the listing
    already carries is never read by [resolve_cname_chain]: with or without
    it the outcome and the number of runs of the loop body are the same. The
    first record of a name is the one that counts. *)
Theorem resolve_cname_chain_first_record_wins
    (oracle : string -> option (list string)) (l1 l2 : list record) (r r' : record)
    (domain_name : string) :
  In r' l1 -> normalize (Name r') = normalize (Name r) ->
  resolve_cname_chain_count oracle (l1 ++ r :: l2) domain_name
  = resolve_cname_chain_count oracle (l1 ++ l2) domain_name.
Proof.
  intros Hin Hname.
  assert (Hfind : forall c, find_record (l1 ++ r :: l2) c = find_record (l1 ++ l2) c).
  { intros c. unfold find_record. clear domain_name.
    induction l1 as [|a l1 IH]; [done|]. simpl.
    destruct (String.eqb (normalize (Name a)) c) eqn:Ha; [done|].
    destruct Hin as [->|Hin].
    - simpl. clear IH. induction l1 as [|b l1 IH]; simpl.
      + rewrite <- Hname, Ha. done.
      + destruct (String.eqb (normalize (Name b)) c); [done | exact IH].
    - by apply IH. }
  assert (Hnames : index_names (l1 ++ r :: l2) = index_names (l1 ++ l2)).
  { unfold index_names. apply set_eq. intros x.
    rewrite !elem_of_list_to_set, !list_elem_of_In, !in_map_iff.
    split; intros (y & Hy & Hiny); apply in_app_or in Hiny.
    - destruct Hiny as [Hiny|[<-|Hiny]].
      + exists y. split; [done|]. apply in_or_app. by left.
      + exists r'. split; [congruence|]. apply in_or_app. by left.
      + exists y. split; [done|]. apply in_or_app. by right.
    - exists y. split; [done|]. apply in_or_app.
      destruct Hiny as [Hiny|Hiny]; [by left | right; by right]. }
  assert (Hbody : forall t c, chain_body oracle (l1 ++ r :: l2) t c
                              = chain_body oracle (l1 ++ l2) t c).
  { intros t c. unfold chain_body. by rewrite Hfind. }
  unfold resolve_cname_chain_count. rewrite Hnames.
  generalize (S (size (index_names (l1 ++ l2)))) (∅ : gset string) (normalize domain_name).
  intros fuel. induction fuel as [|fuel IH]; intros t c; simpl; [done|].
  destruct (decide (c ∈ t)); [done|]. rewrite Hbody.
  destruct (chain_body oracle (l1 ++ l2) t c) as [t' c'|]; [|done]. by rewrite IH.
Qed.

(** A CNAME x -> y followed by an A record of the same name x. *)
Lemma resolve_cname_chain_first_record_wins_witness :
  resolve_cname_chain_count Sample.resolve_all
    ([Sample.rec_x] ++ mkRecord "X." "A" None :: [Sample.rec_y]) "x"
  = resolve_cname_chain_count Sample.resolve_all ([Sample.rec_x] ++ [Sample.rec_y]) "x".
Proof.
  apply (resolve_cname_chain_first_record_wins Sample.resolve_all [Sample.rec_x]
           [Sample.rec_y] (mkRecord "X." "A" None) Sample.rec_x "x").
  - left. reflexivity.
  - reflexivity.
Defined.

(** ** Invariants of the two runs *)

Section RunFacts.

Variable oracle : string -> option (list string).
Variable pattern : Type.
Variable search : pattern -> string -> bool.
Variable pats : list pattern.
Variable limit : option Z.

(** A property that every run of the body keeps holds when the loop ends. *)
Lemma for_loop_invariant {S : Type} (body : S -> record -> result (flow * S))
    (P : S -> Prop) :
  (forall st r f st', P st -> body st r = Ret (f, st') -> P st') ->
  forall l st st', P st -> for_loop body st l = Ret st' -> P st'.
Proof.
  intros Hbody. induction l as [|r l IH]; intros st st' HP.
  - by intros [= <-].
  - rewrite for_loop_cons.
    destruct (body st r) as [[f st1]| |] eqn:Hr; try done.
    rewrite bind_ret. pose proof (Hbody st r f st1 HP Hr) as HP1.
    destruct f; [by apply IH | by intros [= <-]].
Qed.

(** What a run of the body of route53_check.py does to the state. *)
Lemma check_body_effect (records : list record) (st st' : run_state) (r : record)
    (f : flow) :
  check_body oracle search records pats limit st r = Ret (f, st') ->
  st' = st \/
  (limit_reached limit st = false /\
   exists final st_text ips,
     truthy_ips ips = status_resolves st_text /\
     st' = append_report st (normalize (Name r)) final st_text ips).
Proof.
  unfold check_body. destruct (limit_reached limit st) eqn:Hlim.
  { intros [= <- <-]. by left. }
  destruct (check_target r) as [target| |]; try done. rewrite bind_ret.
  destruct (ignore_match search pats (normalize (Name r)) target).
  { intros [= <- <-]. by left. }
  destruct (String.eqb (Type_ r) "CNAME").
  - destruct (first_value r) as [v| |]; try done. rewrite bind_ret.
    destruct (resolve_cname_chain oracle records (normalize v))
      as [[[name st_text] ips]| |] eqn:Hres; try done.
    rewrite bind_ret. intros [= <- <-]. right. split; [done|].
    exists name, st_text, ips. split; [|done].
    unfold resolve_cname_chain, resolve_cname_chain_count in Hres.
    apply chain_loop_sound in Hres
      as [(_ & _ & ->)|[(m & _ & _ & _ & ->)|[(m & _ & _ & _ & -> & ->)|(_ & -> & ->)]]];
      try done; by destruct (truthy_ips ips).
  - destruct (String.eqb (Type_ r) "A").
    + intros [= <- <-]. right. split; [done|]. eexists _, _, _. split; [|done].
      by destruct (truthy_ips (check_a_record oracle (normalize (Name r)))).
    + intros [= <- <-]. by left.
Qed.

Lemma validator_classify_ips (r : record) (src final st_text : string)
    (ips : option (list string)) :
  validator_classify oracle r src = Ret (final, st_text, ips) ->
  truthy_ips ips = truthy_ips (oracle src) /\
  ips_text ips = ips_text (oracle src) /\
  (truthy_ips (oracle src) = false -> st_text = "❌ Source does not resolve").
Proof.
  unfold validator_classify.
  destruct (String.eqb (Type_ r) "CNAME").
  - destruct (first_value r) as [v| |]; try done. rewrite !bind_ret.
    intros [= <- <- <-]. by destruct (oracle src) as [[|ip l]|].
  - rewrite bind_ret. intros [= <- <- <-]. by destruct (oracle src) as [[|ip l]|].
Qed.

(** What a run of the body of route53_validator.py does to the lists. *)
Lemma validator_body_effect (rs rs' : run_state) (seen seen' : gset string) (r : record)
    (f : flow) :
  validator_body oracle search pats limit (rs, seen) r = Ret (f, (rs', seen')) ->
  rs' = rs \/
  (limit_reached limit rs = false /\
   exists final st_text ips,
     truthy_ips ips = truthy_ips (oracle (normalize (Name r))) /\
     ips_text ips = ips_text (oracle (normalize (Name r))) /\
     (truthy_ips (oracle (normalize (Name r))) = false ->
      st_text = "❌ Source does not resolve") /\
     rs' = append_report rs (normalize (Name r)) final st_text ips).
Proof.
  unfold validator_body. destruct (limit_reached limit rs) eqn:Hlim.
  { intros [= <- <- <-]. by left. }
  destruct (negb (supported r)).
  { intros [= <- <- <-]. by left. }
  destruct (decide (normalize (Name r) ∈ seen)).
  { intros [= <- <- <-]. by left. }
  destruct (ignore_match search pats (normalize (Name r)) (validator_target r)).
  { intros [= <- <- <-]. by left. }
  destruct (validator_classify oracle r (normalize (Name r)))
    as [[[final st_text] ips]| |] eqn:Hcl; try done.
  rewrite bind_ret. intros [= <- <- <-]. right. split; [done|].
  exists final, st_text, ips.
  by destruct (validator_classify_ips _ _ _ _ _ Hcl) as (? & ? & ?).
Qed.

Lemma append_report_partitioned (st : run_state) (src final st_text : string)
    (ips : option (list string)) :
  partitioned st -> partitioned (append_report st src final st_text ips).
Proof.
  intros (Hcount & Hperm & Hres & Hunres & Hsent).
  unfold partitioned, append_report. simpl.
  destruct (truthy_ips ips) eqn:Hips; (split; [rewrite length_app; simpl; lia|]).
  - split; [|split; [|split]]; try done.
    + rewrite Hperm. rewrite <- !app_assoc. apply Permutation_app_head.
      apply Permutation_app_comm.
    + by apply sublist_app.
    + by apply sublist_inserts_r.
  - split; [|split; [|split]].
    + rewrite Hperm. by rewrite <- app_assoc.
    + by apply sublist_inserts_r.
    + by apply sublist_app.
    + intros rep Hrep. apply in_app_or in Hrep as [Hrep|[<-|[]]]; [by apply Hsent|].
      unfold make_report. simpl. by destruct ips as [[|ip l]|].
Qed.

Lemma append_report_within_limit (st : run_state) (src final st_text : string)
    (ips : option (list string)) :
  limit_reached limit st = false ->
  within_limit limit (append_report st src final st_text ips).
Proof.
  unfold within_limit, limit_reached. intros Hlim n ->. simpl.
  apply Z.leb_gt in Hlim. lia.
Qed.

Lemma append_report_split_by (test : report -> bool) (st : run_state)
    (src final st_text : string) (ips : option (list string)) :
  test (make_report src final st_text ips) = truthy_ips ips ->
  split_by test st -> split_by test (append_report st src final st_text ips).
Proof.
  intros Htest [Hres Hunres]. unfold split_by, append_report. simpl.
  rewrite !List.filter_app. simpl. rewrite Htest, <- Hres, <- Hunres.
  destruct (truthy_ips ips); simpl; by rewrite ?app_nil_r.
Qed.

Lemma init_state_partitioned : partitioned init_state.
Proof.
  unfold partitioned. simpl. repeat split; try done; constructor.
Qed.

End RunFacts.

(** X8: when either program returns, its three lists agree: [all_results]
    is a rearrangement of [resolved] followed by [unresolved], each of the
    two keeps the order of [all_results], the counter is the number of
    reports, and every unresolved report bears the sentinel
    "No DNS resolution". *)
Theorem runs_are_partitioned
    (oracle : string -> option (list string)) (pattern : Type)
    (search : pattern -> string -> bool)
    (records : list record) (pats : list pattern) (limit : option Z) (out : run_state) :
  check_main oracle search records pats limit = Ret out \/
  validator_main oracle search records pats limit = Ret out ->
  partitioned out.
Proof.
  intros [Hrun|Hrun].
  - unfold check_main, check_loop in Hrun.
    apply (for_loop_invariant (check_body oracle search records pats limit) partitioned)
      with (l := records) (st := init_state); [|apply init_state_partitioned|done].
    intros st r f st' HP Hbody.
    apply check_body_effect in Hbody as [->|(_ & final & st_text & ips & _ & ->)];
      [done | by apply append_report_partitioned].
  - unfold validator_main, validator_loop in Hrun.
    destruct (for_loop (validator_body oracle search pats limit) (init_state, ∅) records)
      as [[rs seen]| |] eqn:Hloop; try done.
    rewrite bind_ret in Hrun. injection Hrun as ->.
    apply (for_loop_invariant (validator_body oracle search pats limit)
             (fun s => partitioned (fst s)))
      with (l := records) (st := (init_state, ∅)) (st' := (out, seen));
      [|apply init_state_partitioned|done].
    intros [st seen0] r f [st' seen'] HP Hbody. cbn [fst] in *.
    apply validator_body_effect in Hbody
      as [->|(_ & final & st_text & ips & _ & _ & _ & ->)];
      [done | by apply append_report_partitioned].
Qed.

Lemma runs_are_partitioned_witness :
  exists out,
    check_main Sample.resolve_b_only Sample.search_nothing
      [Sample.rec_a; Sample.rec_web; Sample.rec_b None] [] None = Ret out /\
    partitioned out.
Proof.
  eexists. split; [vm_compute; reflexivity|].
  apply (runs_are_partitioned Sample.resolve_b_only unit Sample.search_nothing
           [Sample.rec_a; Sample.rec_web; Sample.rec_b None] [] None).
  left. reflexivity.
Defined.

(** X9: with a limit N, neither program ever reports more than max(N, 0)
    records, whatever the listing (also one with ignored, duplicate or
    unsupported records). *)
Theorem limit_is_never_passed
    (oracle : string -> option (list string)) (pattern : Type)
    (search : pattern -> string -> bool)
    (records : list record) (pats : list pattern) (N : Z) (out : run_state) :
  check_main oracle search records pats (Some N) = Ret out \/
  validator_main oracle search records pats (Some N) = Ret out ->
  (Z.of_nat (length (all_results out)) <= Z.max N 0)%Z.
Proof.
  intros Hrun.
  assert (Hinit : within_limit (Some N) init_state /\ partitioned init_state).
  { split; [|apply init_state_partitioned]. intros n _. simpl. lia. }
  assert (Hout : within_limit (Some N) out /\ partitioned out).
  { destruct Hrun as [Hrun|Hrun].
    - unfold check_main, check_loop in Hrun.
      apply (for_loop_invariant (check_body oracle search records pats (Some N))
               (fun st => within_limit (Some N) st /\ partitioned st))
        with (l := records) (st := init_state); [|done|done].
      intros st r f st' [HL HP] Hbody.
      apply check_body_effect in Hbody as [->|(Hlim & final & st_text & ips & _ & ->)];
        [done|].
      split; [by apply append_report_within_limit | by apply append_report_partitioned].
    - unfold validator_main, validator_loop in Hrun.
      destruct (for_loop (validator_body oracle search pats (Some N)) (init_state, ∅) records)
        as [[rs seen]| |] eqn:Hloop; try done.
      rewrite bind_ret in Hrun. injection Hrun as ->.
      apply (for_loop_invariant (validator_body oracle search pats (Some N))
               (fun s => within_limit (Some N) (fst s) /\ partitioned (fst s)))
        with (l := records) (st := (init_state, ∅)) (st' := (out, seen)); [|done|done].
      intros [st seen0] r f [st' seen'] [HL HP] Hbody. cbn [fst] in *.
      apply validator_body_effect in Hbody
        as [->|(Hlim & final & st_text & ips & _ & _ & _ & ->)]; [done|].
      split; [by apply append_report_within_limit | by apply append_report_partitioned]. }
  destruct Hout as [HL (Hcount & _)]. rewrite <- Hcount. by apply HL.
Qed.

Lemma limit_is_never_passed_witness :
  exists out,
    validator_main Sample.resolve_all Sample.search_nothing
      [Sample.rec_a; Sample.rec_web; Sample.rec_b None] [] (Some 2%Z) = Ret out /\
    (Z.of_nat (length (all_results out)) <= Z.max 2 0)%Z.
Proof.
  eexists. split; [vm_compute; reflexivity|].
  apply (limit_is_never_passed Sample.resolve_all unit Sample.search_nothing
           [Sample.rec_a; Sample.rec_web; Sample.rec_b None] [] 2).
  right. reflexivity.
Defined.

(** X10: in route53_check.py the partition can be read off the status: a
    report is in [resolved] exactly when its status is 'Resolved
    externally' or 'Externally resolvable A record', in [unresolved]
    otherwise. *)
Theorem check_partition_by_status
    (oracle : string -> option (list string)) (pattern : Type)
    (search : pattern -> string -> bool)
    (records : list record) (pats : list pattern) (limit : option Z) (out : run_state) :
  check_main oracle search records pats limit = Ret out ->
  resolved out = List.filter (fun rep => status_resolves (status rep)) (all_results out) /\
  unresolved out
  = List.filter (fun rep => negb (status_resolves (status rep))) (all_results out).
Proof.
  unfold check_main, check_loop. intros Hrun.
  apply (for_loop_invariant (check_body oracle search records pats limit)
           (split_by (fun rep => status_resolves (status rep))))
    with (l := records) (st := init_state); [|done|done].
  intros st r f st' HP Hbody.
  apply check_body_effect in Hbody as [->|(_ & final & st_text & ips & Hips & ->)];
    [done|].
  by apply append_report_split_by.
Qed.

Lemma check_partition_by_status_witness :
  exists out,
    check_main Sample.resolve_b_only Sample.search_nothing
      [Sample.rec_a; Sample.rec_web; Sample.rec_b None] [] None = Ret out /\
    resolved out = List.filter (fun rep => status_resolves (status rep)) (all_results out).
Proof.
  eexists. split; [vm_compute; reflexivity|].
  apply (check_partition_by_status Sample.resolve_b_only unit Sample.search_nothing
           [Sample.rec_a; Sample.rec_web; Sample.rec_b None] [] None).
  reflexivity.
Defined.

(** X11: in route53_validator.py the lookup of the source decides
    everything but the final domain: a report is in [resolved] exactly when
    its source resolves to a non-empty list, its exported addresses are
    those of the source or the sentinel, and when the source does not
    resolve its status is '❌ Source does not resolve' whatever the record's
    type and target. *)
Theorem validator_partition_by_source
    (oracle : string -> option (list string)) (pattern : Type)
    (search : pattern -> string -> bool)
    (records : list record) (pats : list pattern) (limit : option Z) (out : run_state) :
  validator_main oracle search records pats limit = Ret out ->
  resolved out
  = List.filter (fun rep => truthy_ips (oracle (source rep))) (all_results out) /\
  unresolved out
  = List.filter (fun rep => negb (truthy_ips (oracle (source rep)))) (all_results out) /\
  (forall rep, In rep (all_results out) ->
     all_ips rep = ips_text (oracle (source rep)) /\
     (truthy_ips (oracle (source rep)) = false ->
      status rep = "❌ Source does not resolve")).
Proof.
  unfold validator_main, validator_loop. intros Hrun.
  destruct (for_loop (validator_body oracle search pats limit) (init_state, ∅) records)
    as [[rs seen]| |] eqn:Hloop; try done.
  rewrite bind_ret in Hrun. injection Hrun as ->.
  pose (P := fun s : run_state * gset string =>
    split_by (fun rep => truthy_ips (oracle (source rep))) (fst s) /\
    forall rep, In rep (all_results (fst s)) ->
      all_ips rep = ips_text (oracle (source rep)) /\
      (truthy_ips (oracle (source rep)) = false ->
       status rep = "❌ Source does not resolve")).
  assert (HP : P (out, seen)).
  { apply (for_loop_invariant (validator_body oracle search pats limit) P)
      with (l := records) (st := (init_state, ∅)); [|done|done].
    intros [st seen0] r f [st' seen'] [Hsplit Hall] Hbody. unfold P in *. cbn [fst] in *.
    apply validator_body_effect in Hbody
      as [->|(_ & final & st_text & ips & Htr & Htext & Hst & ->)]; [done|].
    split; [by apply append_report_split_by|].
    simpl. intros rep Hrep. apply in_app_or in Hrep as [Hrep|[<-|[]]]; [by apply Hall|].
    simpl. done. }
  destruct HP as [[Hres Hunres] Hall]. done.
Qed.

Lemma validator_partition_by_source_witness :
  exists out,
    validator_main Sample.resolve_b_only Sample.search_nothing
      [Sample.rec_a; Sample.rec_web; Sample.rec_b None] [] None = Ret out /\
    resolved out
    = List.filter (fun rep => truthy_ips (Sample.resolve_b_only (source rep)))
        (all_results out).
Proof.
  eexists. split; [vm_compute; reflexivity|].
  apply (validator_partition_by_source Sample.resolve_b_only unit Sample.search_nothing
           [Sample.rec_a; Sample.rec_web; Sample.rec_b None] [] None).
  reflexivity.
Defined.

(** ** The zone lookup *)

Section ZoneFacts.

Lemma scan_page_find (zone_name : string) (is_private : bool) (zones : list zone) :
  scan_page zone_name is_private zones
  = (fun z => Text.last_segment (zone_Id z)) <$> find (zone_matches zone_name is_private) zones.
Proof.
  induction zones as [|z zones IH]; simpl; [done|].
  by destruct (zone_matches zone_name is_private z).
Qed.

Lemma scan_pages_find (zone_name : string) (is_private : bool) (pages : list (list zone)) :
  scan_pages zone_name is_private pages
  = (fun z => Text.last_segment (zone_Id z))
      <$> find (zone_matches zone_name is_private) (concat pages).
Proof.
  induction pages as [|page pages IH]; simpl; [done|].
  rewrite scan_page_find, IH. clear IH.
  induction page as [|z page IH]; simpl; [done|].
  by destruct (zone_matches zone_name is_private z).
Qed.

Lemma zone_matches_dots (zone_name : string) (k : nat) (is_private : bool) (z : zone) :
  zone_matches (zone_name ++ Str.dots k) is_private z = zone_matches zone_name is_private z.
Proof. unfold zone_matches. by rewrite rstrip_dot_app_dots. Qed.

(** The pieces of a string around its slashes: either there is no slash
    and the string is its only piece, or the string ends with a slash
    followed by its last piece; the last piece holds no slash. *)
Lemma split_on_slash (s : string) :
  Text.contains "/" (Text.last_segment s) = false /\
  ((Text.contains "/" s = false /\ Text.split_on "/" s = [s]) \/
   (exists pre, s = pre ++ String "/" (Text.last_segment s)) /\
   (exists seg x rest, Text.split_on "/" s = seg :: x :: rest)).
Proof.
  unfold Text.last_segment.
  induction s as [|c s (Hlast & IH)]; [split; [done | by left]|].
  simpl. destruct (Ascii.eqb c "/") eqn:Hc.
  - apply Ascii.eqb_eq in Hc. subst c.
    destruct IH as [(Hno & Hsplit)|((pre & Hpre) & (seg & x & rest & Hsplit))];
      rewrite Hsplit in *.
    + split; [exact Hno|]. right. split; [by exists EmptyString | by exists EmptyString, s, []].
    + split; [exact Hlast|]. right. split.
      * exists (String "/" pre). simpl. by rewrite Hpre at 1.
      * by exists EmptyString, seg, (x :: rest).
  - destruct IH as [(Hno & Hsplit)|((pre & Hpre) & (seg & x & rest & Hsplit))];
      rewrite Hsplit in *.
    + simpl. rewrite Hc. split; [exact Hno|]. left. by rewrite Hno.
    + split; [exact Hlast|]. right. split.
      * exists (String c pre). simpl. simpl in Hpre. by rewrite Hpre at 1.
      * by exists (String c seg), x, rest.
Qed.

(** [find] returns the first element that passes the test. *)
Lemma find_first_split {A : Type} (g : A -> bool) (l : list A) (z : A) :
  find g l = Some z <->
  exists before after, l = (before ++ z :: after)%list /\
    Forall (fun y => g y = false) before /\ g z = true.
Proof.
  induction l as [|y l IH]; simpl.
  - split; [done|]. intros (before & after & H & _). by destruct before.
  - destruct (g y) eqn:Hy.
    + split.
      * intros [= ->]. exists [], l. repeat split; [constructor | done].
      * intros ([|b before] & after & H & Hb & Hz).
        -- by injection H as ->.
        -- injection H as -> _. apply Forall_cons in Hb as [Hb _]. congruence.
    + rewrite IH. split.
      * intros (before & after & -> & Hb & Hz). exists (y :: before), after.
        repeat split; [by constructor | done].
      * intros ([|b before] & after & H & Hb & Hz).
        -- injection H as -> _. congruence.
        -- injection H as -> ->. apply Forall_cons in Hb as [_ Hb].
           by exists before, after.
Qed.

End ZoneFacts.

(** X12: [find_zone_id] returns for the first zone, in the order of the
    pages taken together, whose name agrees with the requested one up to
    trailing dots and whose privacy flag is the requested one; it ends the
    program with exit code 1 exactly when no zone of any page is such a
    zone. How the zones are cut into pages does not matter. *)
Theorem find_zone_id_first_match
    (pages : list (list zone)) (zone_name : string) (is_private : bool) :
  (forall id, find_zone_id pages zone_name is_private = Returned id <->
     exists before z after,
       concat pages = (before ++ z :: after)%list /\
       Forall (fun y => zone_matches zone_name is_private y = false) before /\
       zone_matches zone_name is_private z = true /\
       id = Text.last_segment (zone_Id z)) /\
  ((exists msg, find_zone_id pages zone_name is_private = SysExit 1 msg) <->
   Forall (fun y => zone_matches zone_name is_private y = false) (concat pages)).
Proof.
  unfold find_zone_id. rewrite scan_pages_find.
  generalize (concat pages). intros zones.
  split.
  - intros id. split.
    + destruct (find (zone_matches zone_name is_private) zones) as [z|] eqn:Hz; [|done].
      simpl. intros [= <-]. apply find_first_split in Hz as (before & after & H1 & H2 & H3).
      by exists before, z, after.
    + intros (before & z & after & H1 & H2 & H3 & ->).
      assert (Hz : find (zone_matches zone_name is_private) zones = Some z).
      { apply find_first_split. by exists before, after. }
      by rewrite Hz.
  - split.
    + destruct (find (zone_matches zone_name is_private) zones) as [z|] eqn:Hz.
      * by intros [msg Hmsg].
      * intros _. apply Forall_forall. intros y Hy. apply list_elem_of_In in Hy.
        pose proof (find_none _ _ Hz y Hy) as Hnone. done.
    + intros Hall.
      destruct (find (zone_matches zone_name is_private) zones) as [z|] eqn:Hz.
      * apply find_some in Hz as [Hin Hm]. apply list_elem_of_In in Hin.
        rewrite Forall_forall in Hall. rewrite (Hall z Hin) in Hm. done.
      * simpl. eauto.
Qed.

(** X13: the identifier [find_zone_id] returns holds no slash, and is what
    follows the last slash of the ['Id'] of a matching zone of the listing,
    or that ['Id'] itself when it holds no slash. *)
Theorem find_zone_id_last_segment
    (pages : list (list zone)) (zone_name : string) (is_private : bool) (id : string) :
  find_zone_id pages zone_name is_private = Returned id ->
  Text.contains "/" id = false /\
  exists z, In z (concat pages) /\ zone_matches zone_name is_private z = true /\
    ((Text.contains "/" (zone_Id z) = false /\ zone_Id z = id) \/
     exists pre, zone_Id z = pre ++ String "/" id).
Proof.
  unfold find_zone_id. rewrite scan_pages_find.
  destruct (find (zone_matches zone_name is_private) (concat pages)) as [z|] eqn:Hz; [|done].
  simpl. intros [= <-]. apply find_some in Hz as [Hin Hm].
  destruct (split_on_slash (zone_Id z)) as [Hno Hcases]. split; [exact Hno|].
  exists z. split; [done|]. split; [done|].
  destruct Hcases as [(Hc & Hsplit)|(Hpre & _)]; [left | by right].
  split; [done|]. unfold Text.last_segment. by rewrite Hsplit.
Qed.

Lemma find_zone_id_last_segment_witness :
  Text.contains "/" "Z123" = false /\
  exists z, In z (concat [[mkZone "other.org." "/hostedzone/Z000" false];
                          [mkZone "example.com." "/hostedzone/Z123" false]]) /\
    zone_matches "example.com" false z = true /\
    ((Text.contains "/" (zone_Id z) = false /\ zone_Id z = "Z123") \/
     exists pre, zone_Id z = pre ++ String "/" "Z123").
Proof.
  apply (find_zone_id_last_segment
           [[mkZone "other.org." "/hostedzone/Z000" false];
            [mkZone "example.com." "/hostedzone/Z123" false]] "example.com" false "Z123").
  reflexivity.
Defined.

(** X14: trailing dots of the requested zone name never matter to
    [find_zone_id]: with any number of them added it returns the same
    identifier, or exits all the same. *)
Theorem find_zone_id_trailing_dots
    (pages : list (list zone)) (zone_name : string) (is_private : bool) (k : nat) :
  returned_value (find_zone_id pages (zone_name ++ Str.dots k) is_private)
  = returned_value (find_zone_id pages zone_name is_private).
Proof.
  unfold find_zone_id. rewrite !scan_pages_find.
  assert (Hfind : find (zone_matches (zone_name ++ Str.dots k) is_private) (concat pages)
                  = find (zone_matches zone_name is_private) (concat pages)).
  { generalize (concat pages). intros zones.
    induction zones as [|z zones IH]; simpl; [done|].
    by rewrite zone_matches_dots, IH. }
  rewrite Hfind.
  by destruct (find (zone_matches zone_name is_private) (concat pages)).
Qed.

(** ** The rows of the export *)

Section ExportFacts.

Lemma string_leb_refl (s : string) : String.leb s s = true.
Proof.
  unfold String.leb. pose proof (String.compare_antisym s s) as H.
  by destruct (String.compare s s).
Qed.

Lemma insert_by_source_perm (rep : report) (l : list report) :
  Permutation (insert_by_source rep l) (rep :: l).
Proof.
  induction l as [|x l IH]; simpl; [done|].
  destruct (String.leb (source rep) (source x)); [done|].
  rewrite IH. apply perm_swap.
Qed.

Lemma insert_by_source_sorted (rep : report) (l : list report) :
  Sorted (fun a b => String.leb (source a) (source b) = true) l ->
  Sorted (fun a b => String.leb (source a) (source b) = true) (insert_by_source rep l).
Proof.
  induction l as [|x l IH]; simpl; intros Hs.
  - repeat constructor.
  - destruct (String.leb (source rep) (source x)) eqn:Hle.
    + constructor; [done | by constructor].
    + apply Sorted_inv in Hs as [Hs Hhd]. constructor; [by apply IH|].
      destruct l as [|y l]; simpl.
      * constructor. destruct (String.leb_total (source x) (source rep)); congruence.
      * destruct (String.leb (source rep) (source y)).
        -- constructor. destruct (String.leb_total (source x) (source rep)); congruence.
        -- constructor. by apply HdRel_inv in Hhd.
Qed.

(** Insertion goes past reports of other sources only. *)
Lemma insert_by_source_filter (name : string) (rep : report) (l : list report) :
  List.filter (fun x => String.eqb (source x) name) (insert_by_source rep l)
  = List.filter (fun x => String.eqb (source x) name) (rep :: l).
Proof.
  induction l as [|x l IH]; [done|].
  simpl insert_by_source.
  destruct (String.leb (source rep) (source x)) eqn:Hle; [done|].
  simpl. simpl in IH. rewrite IH.
  destruct (String.eqb (source rep) name) eqn:Hr; [|done].
  destruct (String.eqb (source x) name) eqn:Hx; [|done].
  apply String.eqb_eq in Hr, Hx. rewrite Hr, Hx, string_leb_refl in Hle. done.
Qed.

End ExportFacts.

(** X15: the rows written to the CSV file are the reports of the chosen
    scope ([all_results], [resolved] or [unresolved]), none lost and none
    added, in ascending order of their source; reports of one source keep
    the order they had in the run (the sort is stable). *)
Theorem export_rows_sorted (scope : csv_scope) (out : run_state) :
  Permutation (export_rows scope out) (export_data scope out) /\
  Sorted (fun a b => String.leb (source a) (source b) = true) (export_rows scope out) /\
  (forall name,
     List.filter (fun x => String.eqb (source x) name) (export_rows scope out)
     = List.filter (fun x => String.eqb (source x) name) (export_data scope out)).
Proof.
  unfold export_rows. generalize (export_data scope out). intros l.
  split; [|split].
  - induction l as [|x l IH]; simpl; [done|].
    rewrite insert_by_source_perm. by constructor.
  - induction l as [|x l IH]; simpl; [constructor|].
    by apply insert_by_source_sorted.
  - intros name. induction l as [|x l IH]; [done|].
    simpl sorted_by_source. rewrite insert_by_source_filter. simpl. by rewrite IH.
Qed.

(** ** The listing *)

(** X16: [list_records] returns the record sets of all the pages, page
    after page and in the order of each page: nothing is lost, repeated or
    reordered by the pagination. *)
Theorem list_records_concat (pages : list (list record)) :
  list_records pages = concat pages /\
  (forall r, In r (list_records pages) <-> exists page, In page pages /\ In r page) /\
  length (list_records pages) = list_sum (map (fun page => length page) pages).
Proof.
  assert (Hfold : forall acc : list record,
            fold_left (fun all_records page => all_records ++ page)%list pages acc
            = (acc ++ concat pages)%list).
  { induction pages as [|page pages IH]; intros acc; simpl.
    - by rewrite app_nil_r.
    - by rewrite IH, app_assoc. }
  assert (Heq : list_records pages = concat pages) by apply Hfold.
  rewrite Heq. split; [done|]. split.
  - intros r. rewrite in_concat. split.
    + intros (page & Hp & Hr). by exists page.
    + intros (page & Hp & Hr). by exists page.
  - clear Hfold Heq. induction pages as [|page pages IH]; simpl; [done|].
    by rewrite length_app, IH.
Qed.

(** ** An A record as a chain of no edge *)

(** X17: in route53_check.py an A record that is processed gets the
    report the chain resolver gives for its own name, provided the first
    record of that name in the listing is an A record: the direct lookup of
    [main] and the chain resolver agree on the final domain, the status and
    the addresses. *)
Theorem a_record_is_a_trivial_chain
    (oracle : string -> option (list string)) (pattern : Type)
    (search : pattern -> string -> bool)
    (records : list record) (pats : list pattern) (limit : option Z)
    (st : run_state) (r m : record) :
  Type_ r = "A" ->
  find_record records (normalize (Name r)) = Some m -> Type_ m = "A" ->
  limit_reached limit st = false ->
  ignored search pats r = false ->
  exists final st_text ips,
    resolve_cname_chain oracle records (Name r) = Ret (final, st_text, ips) /\
    final = normalize (Name r) /\
    check_body oracle search records pats limit st r
    = Ret (Continue, append_report st (normalize (Name r)) final st_text ips).
Proof.
  intros Hr Hm Htm Hlim Hig.
  exists (normalize (Name r)),
    (if truthy_ips (oracle (normalize (Name r))) then "Externally resolvable A record"
     else "A record does not resolve externally"),
    (oracle (normalize (Name r))).
  split; [|split; [done|]].
  - unfold resolve_cname_chain, resolve_cname_chain_count. simpl.
    destruct (decide (normalize (Name r) ∈ (∅ : gset string))) as [Hin|_].
    { by apply not_elem_of_empty in Hin. }
    unfold chain_body. by rewrite Hm, Htm.
  - unfold ignored, cname_target in Hig. rewrite Hr in Hig.
    change (String.eqb "A" "CNAME") with false in Hig. cbn iota in Hig.
    unfold check_body, check_target. rewrite Hlim, Hr.
    change (String.eqb "A" "CNAME") with false. cbn iota.
    by rewrite bind_ret, Hig.
Qed.

Lemma a_record_is_a_trivial_chain_witness :
  exists final st_text ips,
    resolve_cname_chain Sample.resolve_all [Sample.rec_web] (Name Sample.rec_web)
    = Ret (final, st_text, ips) /\
    final = normalize (Name Sample.rec_web) /\
    check_body Sample.resolve_all Sample.search_nothing [Sample.rec_web] [] None
      init_state Sample.rec_web
    = Ret (Continue,
           append_report init_state (normalize (Name Sample.rec_web)) final st_text ips).
Proof.
  apply (a_record_is_a_trivial_chain Sample.resolve_all unit Sample.search_nothing
           [Sample.rec_web] [] None init_state Sample.rec_web Sample.rec_web);
    reflexivity.
Defined.

(** ** What is never reported *)

Section ReportedFacts.

Variable oracle : string -> option (list string).
Variable pattern : Type.
Variable search : pattern -> string -> bool.
Variable pats : list pattern.
Variable limit : option Z.

(** The invariant rule of [for_loop], the body being run on records of the
    list only. *)
Lemma for_loop_invariant_in {S : Type} (body : S -> record -> result (flow * S))
    (P : S -> Prop) (l : list record) :
  (forall st r f st', In r l -> P st -> body st r = Ret (f, st') -> P st') ->
  forall st st', P st -> for_loop body st l = Ret st' -> P st'.
Proof.
  induction l as [|r l IH]; intros Hbody st st' HP.
  - by intros [= <-].
  - rewrite for_loop_cons.
    destruct (body st r) as [[f st1]| |] eqn:Hr; try done.
    rewrite bind_ret.
    pose proof (Hbody st r f st1 (or_introl eq_refl) HP Hr) as HP1.
    destruct f; [|by intros [= <-]].
    apply IH; [|done]. intros s x g s' Hx. apply Hbody. by right.
Qed.

Lemma ignore_match_source (src : string) (target : option string) (pat : pattern) :
  ignore_match search pats src target = false -> In pat pats -> search pat src = false.
Proof.
  unfold ignore_match. intros Hex Hin.
  destruct (search pat src) eqn:Hs; [|done].
  assert (Htrue : existsb (fun pat => search pat src ||
            match target with
            | Some t => Str.truthy t && search pat t
            | None => false
            end) pats = true).
  { apply existsb_exists. exists pat. split; [done|]. by rewrite Hs. }
  congruence.
Qed.

(** A report of route53_check.py comes from a record of a supported type
    whose source no pattern matches. *)
Lemma check_body_reports (records : list record) (st st' : run_state) (r : record)
    (f : flow) :
  check_body oracle search records pats limit st r = Ret (f, st') ->
  st' = st \/
  (supported r = true /\
   (forall pat, In pat pats -> search pat (normalize (Name r)) = false) /\
   exists final st_text ips,
     st' = append_report st (normalize (Name r)) final st_text ips).
Proof.
  unfold check_body, supported. destruct (limit_reached limit st).
  { intros [= <- <-]. by left. }
  destruct (check_target r) as [target| |]; try done. rewrite bind_ret.
  destruct (ignore_match search pats (normalize (Name r)) target) eqn:Hig.
  { intros [= <- <-]. by left. }
  assert (Hpats : forall pat, In pat pats -> search pat (normalize (Name r)) = false).
  { intros pat. by apply ignore_match_source with target. }
  destruct (String.eqb (Type_ r) "CNAME").
  - destruct (first_value r) as [v| |]; try done. rewrite bind_ret.
    destruct (resolve_cname_chain oracle records (normalize v))
      as [[[name st_text] ips]| |]; try done.
    rewrite bind_ret. intros [= <- <-]. right. rewrite orb_true_r.
    repeat split; [done|]. by exists name, st_text, ips.
  - destruct (String.eqb (Type_ r) "A").
    + intros [= <- <-]. right. repeat split; [done|]. by eexists _, _, _.
    + intros [= <- <-]. by left.
Qed.

(** The same for route53_validator.py. *)
Lemma validator_body_reports (rs rs' : run_state) (seen seen' : gset string) (r : record)
    (f : flow) :
  validator_body oracle search pats limit (rs, seen) r = Ret (f, (rs', seen')) ->
  rs' = rs \/
  (supported r = true /\
   (forall pat, In pat pats -> search pat (normalize (Name r)) = false) /\
   exists final st_text ips,
     rs' = append_report rs (normalize (Name r)) final st_text ips).
Proof.
  unfold validator_body. destruct (limit_reached limit rs).
  { intros [= <- <- <-]. by left. }
  destruct (supported r); simpl.
  2: { intros [= <- <- <-]. by left. }
  destruct (decide (normalize (Name r) ∈ seen)).
  { intros [= <- <- <-]. by left. }
  destruct (ignore_match search pats (normalize (Name r)) (validator_target r)) eqn:Hig.
  { intros [= <- <- <-]. by left. }
  destruct (validator_classify oracle r (normalize (Name r)))
    as [[[final st_text] ips]| |]; try done.
  rewrite bind_ret. intros [= <- <- <-]. right. split; [done|]. split.
  - intros pat. by apply ignore_match_source with (validator_target r).
  - by exists final, st_text, ips.
Qed.

(** A record whose name was seen, or met once the limit is reached, is
    passed over by the validator. *)
Lemma validator_loop_skip_seen (rs : run_state) (seen : gset string) (r : record)
    (l : list record) :
  normalize (Name r) ∈ seen ->
  validator_loop oracle search pats limit (rs, seen) (r :: l)
  = validator_loop oracle search pats limit (rs, seen) l.
Proof.
  intros Hin. unfold validator_loop. rewrite for_loop_cons.
  assert (Hb : exists f, validator_body oracle search pats limit (rs, seen) r
                         = Ret (f, (rs, seen)) /\
                         (f = Break -> limit_reached limit rs = true)).
  { unfold validator_body. destruct (limit_reached limit rs); [by exists Break|].
    exists Continue. split; [|done].
    destruct (negb (supported r)); [done|].
    by destruct (decide (normalize (Name r) ∈ seen)). }
  destruct Hb as (f & -> & Hf). rewrite bind_ret. destruct f; [done|].
  destruct l as [|x l]; [done|]. rewrite for_loop_cons.
  unfold validator_body. by rewrite (Hf eq_refl), bind_ret.
Qed.

End ReportedFacts.

(** X18: in the validator a record of type A or CNAME shadows every later
    record of the same normalized name: the run over a listing is the run
    over the listing without such a later record. *)
Theorem validator_later_duplicate_is_skipped
    (oracle : string -> option (list string)) (pattern : Type)
    (search : pattern -> string -> bool) (pats : list pattern) (limit : option Z)
    (l1 l2 : list record) (r r' : record) :
  In r' l1 -> supported r' = true -> normalize (Name r') = normalize (Name r) ->
  validator_main oracle search (l1 ++ r :: l2) pats limit
  = validator_main oracle search (l1 ++ l2) pats limit.
Proof.
  intros Hin Hsup Hname. unfold validator_main.
  assert (Hloop : forall st : run_state * gset string,
            (normalize (Name r) ∈ snd st \/ In r' l1) ->
            validator_loop oracle search pats limit st (l1 ++ r :: l2)
            = validator_loop oracle search pats limit st (l1 ++ l2)).
  { clear Hin. induction l1 as [|a l1 IH]; intros [rs seen] Hst.
    - destruct Hst as [Hst|[]]. by apply validator_loop_skip_seen.
    - unfold validator_loop in *. simpl app. rewrite !for_loop_cons.
      destruct (validator_body oracle search pats limit (rs, seen) a)
        as [[f [rs1 seen1]]| |] eqn:Hbody; try done.
      rewrite !bind_ret. destruct f; [|done].
      apply IH. simpl.
      apply validator_body_cases in Hbody
        as [(? & _)|[(_ & -> & -> & Hskip)|(_ & Ha & _ & -> & _)]]; [done| |].
      + destruct Hst as [Hst|[->|Hst]]; [by left| |by right].
        left. destruct Hskip as [Hskip|Hskip]; [congruence|]. by rewrite <- Hname.
      + destruct Hst as [Hst|[->|Hst]]; [|left|by right].
        * left. apply elem_of_union. by right.
        * rewrite <- Hname. apply elem_of_union. left. by apply elem_of_singleton. }
  rewrite Hloop; [done | by right].
Qed.

Lemma validator_later_duplicate_is_skipped_witness :
  validator_main Sample.resolve_all Sample.search_nothing
    ([Sample.rec_dup_cname; Sample.rec_web] ++ Sample.rec_dup_a None :: [Sample.rec_a]) [] None
  = validator_main Sample.resolve_all Sample.search_nothing
      ([Sample.rec_dup_cname; Sample.rec_web] ++ [Sample.rec_a]) [] None.
Proof.
  apply (validator_later_duplicate_is_skipped Sample.resolve_all unit Sample.search_nothing
           [] None [Sample.rec_dup_cname; Sample.rec_web] [Sample.rec_a]
           (Sample.rec_dup_a None) Sample.rec_dup_cname).
  - left. reflexivity.
  - reflexivity.
  - reflexivity.
Defined.

(** X19: trailing dots of the starting name never matter to
    [resolve_cname_chain]; nor, for a starting name of ASCII characters,
    does the case of its letters or its being normalized beforehand: the
    outcome and the number of runs of the loop body are the same. *)
Theorem resolve_cname_chain_start_insensitive
    (oracle : string -> option (list string)) (records : list record)
    (domain_name : string) (k : nat) :
  resolve_cname_chain_count oracle records (domain_name ++ Str.dots k)
  = resolve_cname_chain_count oracle records domain_name /\
  (Text.is_ascii domain_name = true ->
   resolve_cname_chain_count oracle records (Str.lower domain_name)
   = resolve_cname_chain_count oracle records domain_name /\
   resolve_cname_chain_count oracle records (normalize domain_name)
   = resolve_cname_chain_count oracle records domain_name).
Proof.
  unfold resolve_cname_chain_count, normalize. split.
  - by rewrite rstrip_dot_app_dots.
  - intros _. by rewrite !rstrip_dot_lower, rstrip_dot_idem, !lower_idem.
Qed.

Lemma resolve_cname_chain_start_insensitive_witness :
  resolve_cname_chain_count Sample.resolve_all [Sample.rec_a; Sample.rec_b None]
    (Str.lower "A.Example.COM.")
  = resolve_cname_chain_count Sample.resolve_all [Sample.rec_a; Sample.rec_b None]
      "A.Example.COM." /\
  resolve_cname_chain_count Sample.resolve_all [Sample.rec_a; Sample.rec_b None]
    (normalize "A.Example.COM.")
  = resolve_cname_chain_count Sample.resolve_all [Sample.rec_a; Sample.rec_b None]
      "A.Example.COM.".
Proof.
  apply (proj2 (resolve_cname_chain_start_insensitive Sample.resolve_all
                  [Sample.rec_a; Sample.rec_b None] "A.Example.COM." 0)).
  reflexivity.
Defined.

(** X20: neither program ever reports a record of another type than A
    and CNAME, nor a source that an ignore pattern matches: every report of
    a run that returns bears the normalized name of an A or CNAME record of
    the listing, and no pattern finds a match in it. *)
Theorem reports_are_supported_and_not_ignored
    (oracle : string -> option (list string)) (pattern : Type)
    (search : pattern -> string -> bool)
    (records : list record) (pats : list pattern) (limit : option Z) (out : run_state) :
  check_main oracle search records pats limit = Ret out \/
  validator_main oracle search records pats limit = Ret out ->
  forall rep, In rep (all_results out) ->
    (exists r, In r records /\ supported r = true /\ source rep = normalize (Name r)) /\
    (forall pat, In pat pats -> search pat (source rep) = false).
Proof.
  pose (P := fun st : run_state => forall rep, In rep (all_results st) ->
    (exists r, In r records /\ supported r = true /\ source rep = normalize (Name r)) /\
    (forall pat, In pat pats -> search pat (source rep) = false)).
  assert (Happ : forall st r final st_text ips,
            In r records -> supported r = true ->
            (forall pat, In pat pats -> search pat (normalize (Name r)) = false) ->
            P st -> P (append_report st (normalize (Name r)) final st_text ips)).
  { intros st r final st_text ips Hin Hsup Hpats HP rep Hrep. simpl in Hrep.
    apply in_app_or in Hrep as [Hrep|[<-|[]]]; [by apply HP|].
    simpl. split; [by exists r | done]. }
  intros [Hrun|Hrun].
  - unfold check_main, check_loop in Hrun.
    apply (for_loop_invariant_in (check_body oracle search records pats limit) P records)
      with (st := init_state); [|done|done].
    intros st r f st' Hin HP Hbody.
    apply check_body_reports in Hbody
      as [->|(Hsup & Hpats & final & st_text & ips & ->)]; [done|].
    by apply Happ.
  - unfold validator_main, validator_loop in Hrun.
    destruct (for_loop (validator_body oracle search pats limit) (init_state, ∅) records)
      as [[rs seen]| |] eqn:Hloop; try done.
    rewrite bind_ret in Hrun. injection Hrun as ->.
    apply (for_loop_invariant_in (validator_body oracle search pats limit)
             (fun s => P (fst s)) records)
      with (st := (init_state, ∅)) (st' := (out, seen)); [|done|done].
    intros [st seen0] r f [st' seen'] Hin HP Hbody. cbn [fst] in *.
    apply validator_body_reports in Hbody
      as [->|(Hsup & Hpats & final & st_text & ips & ->)]; [done|].
    by apply Happ.
Qed.

Lemma reports_are_supported_and_not_ignored_witness :
  exists out,
    check_main Sample.resolve_all Sample.search_exact
      [Sample.rec_dup_cname; Sample.rec_web; mkRecord "mx.example.com." "MX" None]
      ["ign.example.com"] None = Ret out /\
    forall rep, In rep (all_results out) ->
      (exists r, In r [Sample.rec_dup_cname; Sample.rec_web;
                       mkRecord "mx.example.com." "MX" None] /\
         supported r = true /\ source rep = normalize (Name r)) /\
      (forall pat, In pat ["ign.example.com"] -> Sample.search_exact pat (source rep) = false).
Proof.
  eexists. split; [vm_compute; reflexivity|].
  apply (reports_are_supported_and_not_ignored Sample.resolve_all string Sample.search_exact
           [Sample.rec_dup_cname; Sample.rec_web; mkRecord "mx.example.com." "MX" None]
           ["ign.example.com"] None).
  left. reflexivity.
Defined.

(** ** The run on an empty answer *)

Section EmptyAnswerRun.

Variable oracle : string -> option (list string).
Variable pattern : Type.
Variable search : pattern -> string -> bool.
Variable records : list record.
Variable pats : list pattern.
Variable limit : option Z.

(** What a run of the body of route53_check.py appends: a report whose
    addresses are those of the lookup of its final domain, or none. *)
Lemma check_body_effect_lookup (st st' : run_state) (r : record) (f : flow) :
  check_body oracle search records pats limit st r = Ret (f, st') ->
  st' = st \/
  exists final st_text ips,
    truthy_ips ips = status_resolves st_text /\
    (truthy_ips (oracle final) = false -> truthy_ips ips = false) /\
    st' = append_report st (normalize (Name r)) final st_text ips.
Proof.
  unfold check_body. destruct (limit_reached limit st).
  { intros [= <- <-]. by left. }
  destruct (check_target r) as [target| |]; try done. rewrite bind_ret.
  destruct (ignore_match search pats (normalize (Name r)) target).
  { intros [= <- <-]. by left. }
  destruct (String.eqb (Type_ r) "CNAME").
  - destruct (first_value r) as [v| |]; try done. rewrite bind_ret.
    destruct (resolve_cname_chain oracle records (normalize v))
      as [[[name st_text] ips]| |] eqn:Hres; try done.
    rewrite bind_ret. intros [= <- <-]. right.
    exists name, st_text, ips. split; [|split; [|done]];
      unfold resolve_cname_chain, resolve_cname_chain_count in Hres;
      apply chain_loop_sound in Hres
        as [(_ & -> & ->)|[(m & _ & _ & -> & ->)|[(m & _ & _ & _ & -> & ->)|(_ & -> & ->)]]];
      try done; by destruct (truthy_ips (oracle name)).
  - destruct (String.eqb (Type_ r) "A").
    + intros [= <- <-]. right. eexists _, _, _. split; [|split; [|done]]; [|done].
      by destruct (truthy_ips (check_a_record oracle (normalize (Name r)))).
    + intros [= <- <-]. by left.
Qed.

(** The body on an A record whose lookup gives no address. *)
Lemma check_body_a_unresolved (st : run_state) (r : record) :
  Type_ r = "A" ->
  limit_reached limit st = false ->
  ignored search pats r = false ->
  truthy_ips (oracle (normalize (Name r))) = false ->
  let rep := mkReport (normalize (Name r)) (normalize (Name r))
               "A record does not resolve externally" "No DNS resolution" in
  check_body oracle search records pats limit st r
  = Ret (Continue,
         mkState (unresolved st ++ [rep]) (resolved st) (all_results st ++ [rep])
           (S (processed_count st))).
Proof.
  intros Hr Hlim Hig Hips. unfold ignored, cname_target in Hig. rewrite Hr in Hig.
  change (String.eqb "A" "CNAME") with false in Hig. cbn iota in Hig.
  unfold check_body, check_target. rewrite Hlim, Hr.
  change (String.eqb "A" "CNAME") with false. cbn iota.
  rewrite bind_ret, Hig. change (String.eqb "A" "A") with true. cbn iota.
  unfold check_a_record, append_report, make_report. rewrite Hips.
  by destruct (oracle (normalize (Name r))) as [[|ip l]|].
Qed.

(** The body on a CNAME record whose chain ends without an address. *)
Lemma check_body_cname_unresolved (st : run_state) (r : record)
    (v name st_text : string) (ips : option (list string)) :
  Type_ r = "CNAME" ->
  first_value r = Ret v ->
  limit_reached limit st = false ->
  ignored search pats r = false ->
  resolve_cname_chain oracle records (normalize v) = Ret (name, st_text, ips) ->
  truthy_ips ips = false ->
  let rep := mkReport (normalize (Name r)) name st_text "No DNS resolution" in
  check_body oracle search records pats limit st r
  = Ret (Continue,
         mkState (unresolved st ++ [rep]) (resolved st) (all_results st ++ [rep])
           (S (processed_count st))).
Proof.
  intros Hr Hv Hlim Hig Hres Hips. unfold ignored, cname_target, validator_target in Hig.
  assert (Hvals : exists l, ResourceRecords r = Some (v :: l)).
  { unfold first_value in Hv. destruct (ResourceRecords r) as [[|v' l]|]; try done.
    injection Hv as ->. by exists l. }
  destruct Hvals as [l Hl]. rewrite Hr, Hl in Hig.
  change (String.eqb "CNAME" "CNAME") with true in Hig. cbn iota in Hig.
  unfold check_body, check_target. rewrite Hlim, Hr, Hv.
  change (String.eqb "CNAME" "CNAME") with true. cbn iota.
  rewrite !bind_ret, Hig, Hres, bind_ret.
  unfold append_report, make_report. rewrite Hips.
  by destruct ips as [[|ip l']|].
Qed.

End EmptyAnswerRun.

(** C9: an empty answer of the resolver is treated as a failed lookup.
    - A chain that ends on an empty answer carries one of the two
      not-resolving statuses.
    - The chain resolver and the whole run return the same under [oracle] as
      under the resolver that fails wherever [oracle] answers an empty list
      (up to the empty list itself in the chain's third component).
    - A report built from an empty answer goes to [unresolved] with the
      sentinel "No DNS resolution", exactly as one built from a failed
      lookup.
    - The loop body of [main], on an A record that it processes and whose
      lookup answers the empty list, appends to [all_results] and to
      [unresolved], and not to [resolved], the report with the status
      'A record does not resolve externally' and the sentinel, and counts
      the record.
    - On a CNAME record that it processes and whose chain ends on an empty
      answer, it does the same with the final name and the status of the
      chain, which is one of the two not-resolving ones.
    - In a run that returns, every report whose final domain's lookup
      answers an empty list (or fails) is in [unresolved] and not in
      [resolved], bears the sentinel, and has a status other than the two
      resolving ones. *)
Theorem empty_answer_is_no_resolution
    (oracle : string -> option (list string)) (pattern : Type)
    (search : pattern -> string -> bool)
    (records : list record) (pats : list pattern) (limit : option Z) :
  (forall domain_name name st_text,
     resolve_cname_chain oracle records domain_name = Ret (name, st_text, Some []) ->
     oracle name = Some [] /\
     (st_text = "Does not have an IP match" \/
      st_text = "A record does not resolve externally")) /\
  (forall domain_name,
     resolve_cname_chain (collapse oracle) records domain_name
     = outcome_forget_empty (resolve_cname_chain oracle records domain_name)) /\
  (forall st src final st_text,
     append_report st src final st_text (Some [])
     = append_report st src final st_text None /\
     unresolved (append_report st src final st_text (Some []))
     = (unresolved st ++ [mkReport src final st_text "No DNS resolution"])%list /\
     resolved (append_report st src final st_text (Some [])) = resolved st) /\
  check_main (collapse oracle) search records pats limit
  = check_main oracle search records pats limit /\
  (forall st r,
     Type_ r = "A" -> limit_reached limit st = false -> ignored search pats r = false ->
     oracle (normalize (Name r)) = Some [] ->
     check_body oracle search records pats limit st r
     = Ret (Continue,
            mkState
              (unresolved st ++
               [mkReport (normalize (Name r)) (normalize (Name r))
                  "A record does not resolve externally" "No DNS resolution"])
              (resolved st)
              (all_results st ++
               [mkReport (normalize (Name r)) (normalize (Name r))
                  "A record does not resolve externally" "No DNS resolution"])
              (S (processed_count st)))) /\
  (forall st r v name st_text,
     Type_ r = "CNAME" -> first_value r = Ret v ->
     limit_reached limit st = false -> ignored search pats r = false ->
     resolve_cname_chain oracle records (normalize v) = Ret (name, st_text, Some []) ->
     (st_text = "Does not have an IP match" \/
      st_text = "A record does not resolve externally") /\
     check_body oracle search records pats limit st r
     = Ret (Continue,
            mkState
              (unresolved st ++
               [mkReport (normalize (Name r)) name st_text "No DNS resolution"])
              (resolved st)
              (all_results st ++
               [mkReport (normalize (Name r)) name st_text "No DNS resolution"])
              (S (processed_count st)))) /\
  (forall out rep,
     check_main oracle search records pats limit = Ret out ->
     In rep (all_results out) ->
     truthy_ips (oracle (final_domain rep)) = false ->
     In rep (unresolved out) /\ ~ In rep (resolved out) /\
     all_ips rep = "No DNS resolution" /\
     status_resolves (status rep) = false).
Proof.
  split; [|split; [|split; [|split; [|split; [|split]]]]].
  - intros domain_name name st_text. apply chain_loop_empty_answer.
  - apply resolve_cname_chain_collapse.
  - done.
  - unfold check_main, check_loop. apply for_loop_ext.
    intros s r. apply check_body_collapse.
  - intros st r Hr Hlim Hig Hips.
    apply check_body_a_unresolved; try done. by rewrite Hips.
  - intros st r v name st_text Hr Hv Hlim Hig Hres. split.
    + by apply (chain_loop_empty_answer oracle _ _ _ _ _ _ Hres).
    + by apply check_body_cname_unresolved with v (Some []).
  - intros out rep Hrun Hrep Hips.
    pose (P := fun st : run_state =>
      split_by (fun rep => status_resolves (status rep)) st /\
      forall rep, In rep (all_results st) ->
        truthy_ips (oracle (final_domain rep)) = false ->
        status_resolves (status rep) = false /\ all_ips rep = "No DNS resolution").
    assert (HP : P out).
    { unfold check_main, check_loop in Hrun.
      apply (for_loop_invariant (check_body oracle search records pats limit) P)
        with (l := records) (st := init_state); [|done|done].
      intros st r f st' [Hsplit Hall] Hbody.
      apply check_body_effect_lookup in Hbody
        as [->|(final & st_text & ips & Hst & Hlook & ->)]; [done|].
      split; [by apply append_report_split_by|].
      intros rep0 Hrep0 Hips0. simpl in Hrep0.
      apply in_app_or in Hrep0 as [Hrep0|[<-|[]]]; [by apply Hall|].
      simpl in *. specialize (Hlook Hips0). rewrite <- Hst, Hlook.
      split; [done|]. by destruct ips as [[|ip l]|]. }
    destruct HP as [[Hres Hunres] Hall].
    destruct (Hall rep Hrep Hips) as [Hst Hsent].
    rewrite Hres, Hunres, !filter_In, Hst. repeat split; try done.
    by intros [_ ?].
Qed.

(** An A record whose name the resolver answers with an empty list. *)
Lemma empty_answer_is_no_resolution_witness :
  (resolve_cname_chain (fun _ => Some []) [Sample.rec_web] "www.example.com"
     = Ret ("www.example.com", "A record does not resolve externally", Some []) /\
   ((fun _ : string => Some ([] : list string)) "www.example.com" = Some [] /\
    ("A record does not resolve externally" = "Does not have an IP match" \/
     "A record does not resolve externally" = "A record does not resolve externally"))) /\
  check_body (fun _ => Some []) Sample.search_nothing [Sample.rec_web] [] None
    init_state Sample.rec_web
  = Ret (Continue,
         mkState
           [mkReport "www.example.com" "www.example.com"
              "A record does not resolve externally" "No DNS resolution"]
           []
           [mkReport "www.example.com" "www.example.com"
              "A record does not resolve externally" "No DNS resolution"]
           1).
Proof.
  pose proof (empty_answer_is_no_resolution (fun _ => Some []) unit Sample.search_nothing
                [Sample.rec_web] [] None) as (H1 & _ & _ & _ & H5 & _).
  split.
  - split; [reflexivity|].
    apply (H1 "www.example.com" "www.example.com" "A record does not resolve externally").
    reflexivity.
  - apply (H5 init_state Sample.rec_web); reflexivity.
Defined.
